(** * Flexiloan: the client-onboarding and listing routes

    A shallow embedding of the two Express routes of the backend in
    [frontend/src/App.jsx] ([app.get('/api/clients')] and
    [app.post('/api/clients')]), of the Mongoose schema [clientSchema] they
    persist through, and of the fragment of the JavaScript runtime the
    routes exercise (truthiness, [parseInt], the relational operator [>],
    template literals).  The React component [App] of the same file is
    embedded as well: its state, [fetchClients], [handleInputChange],
    [handleSubmit], [getScoreColor] and the language switch, run against the
    two routes.  The JSX it renders is left out, and with it the percentage
    of [StatCard], whose [toFixed] depends on binary64 rounding.

    Conventions of the model.
    - A JavaScript number is [NaN], an infinity, or a finite decimal
      [Dec m e] standing for [m * 10^e], i.e. the exact value of a JSON
      number literal.  Rounding to binary64 is not modelled, and neither is
      the sign of zero.
    - A JSON field value is a scalar ([undefined] for an absent key, [null],
      a boolean, a number or a string).  Fields holding nested arrays or
      objects are outside the model.
    - Strings are byte strings; the Arabic offer texts are kept as their
      UTF-8 bytes.  Only the ASCII white space characters are recognised as
      white space by the numeric parsers.
    - Mongoose is modelled by what its documentation says of the paths the
      schema uses: the casters of [Number] and [String], the [required]
      validator, the timestamps, and [save] rejecting a document that does
      not validate.
    - The scoring service, the database link, the clock and the generator of
      document identities form the environment [Env] of a request. *)

From Stdlib Require Import ZArith QArith Qpower String Ascii List DecimalString.
From Stdlib Require Import Sorting.Sorted Sorting.Permutation Lia.
From stdpp Require Import gmap strings list.

Local Open Scope Z_scope.

(** ** The JavaScript fragment *)

Module Js.

(** Numbers. *)
Inductive JsNum : Type :=
| NaN
| Infinity (negative : bool)
| Dec (m e : Z).

(** Scalar values. *)
Inductive JsValue : Type :=
| JUndefined
| JNull
| JBool (b : bool)
| JNumber (n : JsNum)
| JString (s : string).

(** The rational written by the numeral [Dec m e]. *)
Definition dec_value (m e : Z) : Q := (inject_Z m * Qpower (10 # 1) e)%Q.

Definition signed (negative : bool) (z : Z) : Z := if negative then - z else z.

(** *** Binary64

    The runtime holds binary64 numbers.  A finite one is a multiple of
    2^-1074, the smallest positive number of the format, and is counted
    here in that unit; the finite numbers are the multiples below 2^2098
    units (that is, below 2^1024) with at most 53 significant bits. *)

(** The magnitude [|m| * 10^e] in units of 2^-1074, as a fraction. *)
Definition fraction (m e : Z) : Z * Z :=
  if 0 <=? e then (Z.shiftl (Z.abs m * 10 ^ e) 1074, 1)
  else (Z.shiftl (Z.abs m) 1074, 10 ^ (- e)).

(** The binade of [A / b]: the [k] with [2^k <= A / b < 2^(k+1)], for
    [A >= b > 0]. *)
Definition binade (A b : Z) : Z :=
  let k := Z.log2 A - Z.log2 b in
  if A <? Z.shiftl b k then k - 1 else k.

(** Round to nearest, ties to even: the multiple of [2^w] nearest to
    [A / b], where [2^w] is the spacing of binary64 at [A / b], and the one
    with an even quotient when two are equally near. *)
Definition round_units (A b : Z) : Z :=
  let w := Z.max (binade A b - 52) 0 in
  let q := Z.shiftr A w / b in
  let r := A - Z.shiftl (q * b) w in
  let d := Z.shiftl b w in
  Z.shiftl (if (d <? 2 * r) || ((d =? 2 * r) && Z.odd q) then q + 1 else q) w.

(** What an infinity counts for: the first power of two out of range. *)
Definition infinity_units : Z := Z.shiftl 1 2098.

(** The magnitude of the binary64 number a numeral is read as. *)
Definition magnitude (m e : Z) : Z :=
  match m with
  | 0 => 0
  | _ => let '(A, b) := fraction m e in Z.min (round_units A b) infinity_units
  end.

Definition binary64_units (m e : Z) : Z := signed (m <? 0) (magnitude m e).

(** The value of that number; an infinity is given the value 2^1024, above
    every finite number. *)
Definition binary64_value (m e : Z) : Q :=
  Qmake (binary64_units m e) (Z.to_pos (Z.shiftl 1 1074)).

(** Reading a numeral, as [JSON.parse] and the conversions from strings
    do: one that rounds to zero or out of range is held as zero or as an
    infinity.  The other numerals are kept as they are written, each
    standing for the binary64 number nearest to it. *)
Definition binary64 (n : JsNum) : JsNum :=
  match n with
  | Dec m e =>
      let U := magnitude m e in
      if U =? 0 then Dec 0 0
      else if U =? infinity_units then Infinity (m <? 0)
      else n
  | _ => n
  end.

Definition number_units (n : JsNum) : option Z :=
  match n with
  | NaN => None
  | Infinity negative => Some (signed negative infinity_units)
  | Dec m e => Some (binary64_units m e)
  end.

(** [x > y] on numbers: false as soon as one side is [NaN]. *)
Definition num_gt (x y : JsNum) : bool :=
  match number_units x, number_units y with
  | Some ux, Some uy => uy <? ux
  | _, _ => false
  end.

Definition isNaN (n : JsNum) : bool :=
  match n with NaN => true | _ => false end.

(** *** Characters and digits *)

Definition code (c : ascii) : Z := Z.of_N (N_of_ascii c).

(** The one-byte white space and line terminators: U+0009 to U+000D and
    U+0020. *)
Definition is_space (c : ascii) : bool :=
  let n := code c in ((9 <=? n) && (n <=? 13)) || (n =? 32).

(** U+00A0, in UTF-8. *)
Definition is_space2 (c1 c2 : ascii) : bool :=
  (code c1 =? 194) && (code c2 =? 160).

(** U+1680, U+2000 to U+200A, U+2028, U+2029, U+202F, U+205F, U+3000 and
    U+FEFF, in UTF-8. *)
Definition is_space3 (c1 c2 c3 : ascii) : bool :=
  let n1 := code c1 in
  let n2 := code c2 in
  let n3 := code c3 in
  ((n1 =? 225) && (n2 =? 154) && (n3 =? 128))
  || ((n1 =? 226) && (n2 =? 128)
      && (((128 <=? n3) && (n3 <=? 138)) || (n3 =? 168) || (n3 =? 169)
          || (n3 =? 175)))
  || ((n1 =? 226) && (n2 =? 129) && (n3 =? 159))
  || ((n1 =? 227) && (n2 =? 128) && (n3 =? 128))
  || ((n1 =? 239) && (n2 =? 187) && (n3 =? 191)).

(** The value of [c] as a digit in [radix], if it is one. *)
Definition digit_in (radix : Z) (c : ascii) : option Z :=
  let n := code c in
  let d := if (48 <=? n) && (n <=? 57) then n - 48
           else if (97 <=? n) && (n <=? 122) then n - 87
           else if (65 <=? n) && (n <=? 90) then n - 55
           else radix in
  if d <? radix then Some d else None.

(** The longest prefix of digits in [radix], and what follows it. *)
Fixpoint span_digits (radix : Z) (cs : list ascii) : list Z * list ascii :=
  match cs with
  | [] => ([], [])
  | c :: cs' =>
      match digit_in radix c with
      | Some d => let '(ds, rest) := span_digits radix cs' in (d :: ds, rest)
      | None => ([], cs)
      end
  end.

Definition digits_value (radix : Z) (ds : list Z) : Z :=
  fold_left (fun acc d => acc * radix + d) ds 0.

(** [cs] without the white space it starts with. *)
Fixpoint drop_space (cs : list ascii) : list ascii :=
  match cs with
  | [] => []
  | c1 :: cs1 =>
      if is_space c1 then drop_space cs1
      else
        match cs1 with
        | [] => cs
        | c2 :: cs2 =>
            if is_space2 c1 c2 then drop_space cs2
            else
              match cs2 with
              | [] => cs
              | c3 :: cs3 => if is_space3 c1 c2 c3 then drop_space cs3 else cs
              end
        end
  end.

(** [cs] without the white space it ends with. *)
Fixpoint drop_space_end (cs : list ascii) : list ascii :=
  match cs with
  | [] => []
  | c :: cs' =>
      match drop_space cs with
      | [] => []
      | _ => c :: drop_space_end cs'
      end
  end.

Definition trim_space (cs : list ascii) : list ascii :=
  drop_space_end (drop_space cs).

Definition split_sign (cs : list ascii) : bool * list ascii :=
  match cs with
  | "-"%char :: cs' => (true, cs')
  | "+"%char :: cs' => (false, cs')
  | _ => (false, cs)
  end.

(** *** [parseInt] on a string, radix left out *)

Definition parseInt_string (s : string) : JsNum :=
  let '(negative, cs) := split_sign (drop_space (list_ascii_of_string s)) in
  let '(radix, cs) :=
    match cs with
    | "0"%char :: "x"%char :: cs' => (16, cs')
    | "0"%char :: "X"%char :: cs' => (16, cs')
    | _ => (10, cs)
    end in
  match fst (span_digits radix cs) with
  | [] => NaN
  | ds => binary64 (Dec (signed negative (digits_value radix ds)) 0)
  end.

(** *** Conversion of a string to a number ([Number(s)]) *)

(** An integer literal in [radix] that must fill the whole input. *)
Definition whole_digits (radix : Z) (cs : list ascii) : JsNum :=
  match span_digits radix cs with
  | (d :: ds, []) => binary64 (Dec (digits_value radix (d :: ds)) 0)
  | _ => NaN
  end.

(** The exponent part [e±ddd] of a decimal literal; [None] when malformed. *)
Definition exponent_part (cs : list ascii) : option Z :=
  match cs with
  | [] => Some 0
  | c :: cs' =>
      if (code c =? 101) || (code c =? 69) then
        let '(negative, ds) := split_sign cs' in
        match span_digits 10 ds with
        | (d :: ds', []) => Some (signed negative (digits_value 10 (d :: ds')))
        | _ => None
        end
      else None
  end.

Definition decimal_literal (cs : list ascii) : JsNum :=
  let '(negative, cs) := split_sign cs in
  if String.eqb (string_of_list_ascii cs) "Infinity" then Infinity negative
  else
    let '(ip, rest) := span_digits 10 cs in
    let '(fp, rest) :=
      match rest with
      | "."%char :: rest' => span_digits 10 rest'
      | _ => ([], rest)
      end in
    match ip ++ fp with
    | [] => NaN
    | ds =>
        match exponent_part rest with
        | Some x =>
            binary64
              (Dec (signed negative (digits_value 10 ds)) (x - Z.of_nat (length fp)))
        | None => NaN
        end
    end.

Definition StringToNumber (s : string) : JsNum :=
  match trim_space (list_ascii_of_string s) with
  | [] => Dec 0 0
  | "0"%char :: "x"%char :: cs => whole_digits 16 cs
  | "0"%char :: "X"%char :: cs => whole_digits 16 cs
  | "0"%char :: "o"%char :: cs => whole_digits 8 cs
  | "0"%char :: "O"%char :: cs => whole_digits 8 cs
  | "0"%char :: "b"%char :: cs => whole_digits 2 cs
  | "0"%char :: "B"%char :: cs => whole_digits 2 cs
  | cs => decimal_literal cs
  end.

(** *** Conversion of a number to a string ([Number::toString], radix 10) *)

Definition digits_of_pos (p : positive) : list ascii :=
  list_ascii_of_string (NilEmpty.string_of_uint (Pos.to_uint p)).

Fixpoint drop_zeros (cs : list ascii) : list ascii :=
  match cs with
  | "0"%char :: cs' => drop_zeros cs'
  | _ => cs
  end.

Definition zeros (n : Z) : list ascii := repeat "0"%char (Z.to_nat n).

Definition string_of_Z (z : Z) : list ascii :=
  match z with
  | Z0 => ["0"%char]
  | Zpos p => digits_of_pos p
  | Zneg p => "-"%char :: digits_of_pos p
  end.

(** The number of decimal digits of a positive integer. *)
Definition decimal_length (z : Z) : Z :=
  Z.of_nat (length (digits_of_pos (Z.to_pos z))).

(** The [n] with [10^(n-1) <= v < 10^n], for the positive number [v] of
    [U] units: counted on the integral part of [v] when [v >= 1], found by
    scaling [v] up otherwise. *)
Fixpoint below_one (U : Z) (fuel : nat) (n : Z) : Z :=
  match fuel with
  | O => n
  | S fuel' =>
      if Z.shiftl 1 1074 <=? U * 10 then n else below_one (U * 10) fuel' (n - 1)
  end.

Definition decimal_exponent (U : Z) : Z :=
  let whole := Z.shiftr U 1074 in
  if 0 <? whole then decimal_length whole else below_one U 400 0.

(** The shortest numeral [s * 10^(n-k)] that is read as the number of [U]
    units: for [k] = 1, 2, ... the two [k]-digit numerals around the number
    are tried, and of two that are read as it the nearer is taken, the even
    one when they are equally near. *)
Fixpoint shortest_from (U n k : Z) (fuel : nat) : Z * Z :=
  let x := n - k in
  let lo := if 0 <=? x then Z.shiftr U 1074 / 10 ^ x
            else Z.shiftr (U * 10 ^ (- x)) 1074 in
  let hi := lo + 1 in
  let twice := if 0 <=? x then 2 * U else 2 * U * 10 ^ (- x) in
  let middle := if 0 <=? x then Z.shiftl ((2 * lo + 1) * 10 ^ x) 1074
                else Z.shiftl (2 * lo + 1) 1074 in
  let nearer_lo := (twice <? middle) || ((twice =? middle) && Z.even lo) in
  match magnitude lo x =? U, magnitude hi x =? U with
  | true, true => if nearer_lo then (lo, x) else (hi, x)
  | true, false => (lo, x)
  | false, true => (hi, x)
  | false, false =>
      match fuel with
      | O => (lo, x)
      | S fuel' => shortest_from U n (k + 1) fuel'
      end
  end.

Definition shortest (U : Z) : Z * Z :=
  shortest_from U (decimal_exponent U) 1 16.

(** The digits [s] of the shortest decimal [s * 10^(n-k)] with [k] digits
    are laid out as the specification of [Number::toString] prescribes. *)
Definition layout_digits (s : list ascii) (n : Z) : list ascii :=
  let k := Z.of_nat (length s) in
  if (k <=? n) && (n <=? 21) then s ++ zeros (n - k)
  else if (0 <? n) && (n <=? 21) then
    take (Z.to_nat n) s ++ "."%char :: drop (Z.to_nat n) s
  else if (-6 <? n) && (n <=? 0) then
    "0"%char :: "."%char :: zeros (- n) ++ s
  else
    let x := n - 1 in
    let mantissa :=
      match s with
      | d :: (_ :: _) as ds => d :: "."%char :: ds
      | _ => s
      end in
    mantissa ++ "e"%char :: (if x <? 0 then "-"%char else "+"%char)
             :: string_of_Z (Z.abs x).

Definition NumberToString (x : JsNum) : string :=
  match x with
  | NaN => "NaN"
  | Infinity false => "Infinity"
  | Infinity true => "-Infinity"
  | Dec m e =>
      let U := magnitude m e in
      if U =? 0 then "0"
      else if U =? infinity_units then
        if m <? 0 then "-Infinity" else "Infinity"
      else
        let '(s, x) := shortest U in
        let all := digits_of_pos (Z.to_pos s) in
        let digits := rev (drop_zeros (rev all)) in
        string_of_list_ascii
          ((if m <? 0 then ["-"%char] else [])
             ++ layout_digits digits (Z.of_nat (length all) + x))
  end.

(** *** The abstract operations *)

Definition ToBoolean (v : JsValue) : bool :=
  match v with
  | JUndefined | JNull => false
  | JBool b => b
  | JNumber NaN => false
  | JNumber (Infinity _) => true
  | JNumber (Dec m e) => negb (magnitude m e =? 0)
  | JString s => negb (String.eqb s "")
  end.

Definition ToNumber (v : JsValue) : JsNum :=
  match v with
  | JUndefined => NaN
  | JNull => Dec 0 0
  | JBool true => Dec 1 0
  | JBool false => Dec 0 0
  | JNumber n => n
  | JString s => StringToNumber s
  end.

Definition ToString (v : JsValue) : string :=
  match v with
  | JUndefined => "undefined"
  | JNull => "null"
  | JBool true => "true"
  | JBool false => "false"
  | JNumber n => NumberToString n
  | JString s => s
  end.

(** [!v] *)
Definition not (v : JsValue) : bool := negb (ToBoolean v).

(** A scalar as [JSON.parse] gives it. *)
Definition parsed (v : JsValue) : JsValue :=
  match v with
  | JNumber n => JNumber (binary64 n)
  | _ => v
  end.

(** [v === undefined] *)
Definition is_undefined (v : JsValue) : bool :=
  match v with JUndefined => true | _ => false end.

(** [v > n] for a number literal [n]: the left operand is converted to a
    number first. *)
Definition gt (v : JsValue) (n : JsNum) : bool := num_gt (ToNumber v) n.

(** [parseInt(v)] *)
Definition parseInt (v : JsValue) : JsNum := parseInt_string (ToString v).

End Js.

Import Js.

(** ** Mongoose: casting and validation of schema paths *)

Module Mongoose.

(** The outcome of casting a value to the type of a path: a [CastError], or
    the cast value, [None] standing for [null] and [undefined]. *)
Inductive Cast (A : Type) : Type :=
| CastError
| Casted (v : option A).
Arguments CastError {A}.
Arguments Casted {A} v.

(** The caster of [{ type: Number }]. *)
Definition castNumber (v : JsValue) : Cast JsNum :=
  match v with
  | JUndefined | JNull => Casted None
  | JString s =>
      if String.eqb s "" then Casted None
      else if isNaN (StringToNumber s) then CastError
      else Casted (Some (StringToNumber s))
  | JBool b => Casted (Some (ToNumber (JBool b)))
  | JNumber n => if isNaN n then CastError else Casted (Some n)
  end.

(** The caster of [{ type: String }]. *)
Definition castString (v : JsValue) : Cast string :=
  match v with
  | JUndefined | JNull => Casted None
  | _ => Casted (Some (ToString v))
  end.

(** [{ required: true }] on a Number path: the value must not be [null]. *)
Definition required_number (c : Cast JsNum) : option JsNum :=
  match c with
  | Casted (Some n) => Some n
  | _ => None
  end.

(** [{ required: true }] on a String path: a string of positive length. *)
Definition required_string (c : Cast string) : option string :=
  match c with
  | Casted (Some s) => if String.eqb s "" then None else Some s
  | _ => None
  end.

End Mongoose.

Import Mongoose.

(** ** The client schema and model *)

(** A persisted client: the seven paths of [clientSchema], the identity and
    the two timestamps added by [{ timestamps: true }]. *)
Module Client.
Record t : Type := mk {
  _id : N;
  name : string;
  age : JsNum;
  income : JsNum;
  loans : JsNum;
  score : JsNum;
  offer : string;
  message : string;
  createdAt : Z;
  updatedAt : Z
}.
End Client.

(** A document under construction: each path holds the result of its cast. *)
Record Document : Type := {
  d_name : Cast string;
  d_age : Cast JsNum;
  d_income : Cast JsNum;
  d_loans : Cast JsNum;
  d_score : Cast JsNum;
  d_offer : Cast string;
  d_message : Cast string
}.

(** [new Client({ name, age, income, loans, score, offer, message })]: each
    value is cast to the type [clientSchema] declares for its path, [String]
    for name, offer and message, [Number] for the other four. *)
Definition new_Client (name age income loans score : JsValue)
    (offer message : string) : Document :=
  {| d_name := castString name;
     d_age := castNumber age;
     d_income := castNumber income;
     d_loans := castNumber loans;
     d_score := castNumber score;
     d_offer := castString (JString offer);
     d_message := castString (JString message) |}.

(** *** The environment of one request *)

(** The parsed body of an answer of the scoring service: a scalar or an
    object. *)
Inductive ResponseData : Type :=
| DataValue (v : JsValue)
| DataObject (o : gmap string JsValue).

(** [await axios.post(AI_MODEL_API, { features })] resolves on a 2xx answer
    with its parsed body and rejects otherwise: no answer, a timeout, or a
    status outside 2xx. *)
Inductive AxiosResult : Type :=
| Rejected (message : string)
| Resolved (data : ResponseData).

(** [AI_MODEL_API] is the scoring service behind the URL of that name, as a
    function of the feature vector posted to it; [db_up] tells whether the
    database answers; [now] and [fresh_id] are the clock and the identity
    given to a document created during the request. *)
Record Env : Type := {
  AI_MODEL_API : list JsNum -> AxiosResult;
  db_up : bool;
  now : Z;
  fresh_id : N
}.

(** Validation of the document, as run by [save]: the seven paths are
    [required: true], so each must have cast and hold a value. *)
Definition validate (env : Env) (d : Document) : option Client.t :=
  name ← required_string (d_name d);
  age ← required_number (d_age d);
  income ← required_number (d_income d);
  loans ← required_number (d_loans d);
  score ← required_number (d_score d);
  offer ← required_string (d_offer d);
  message ← required_string (d_message d);
  Some (Client.mk (fresh_id env) name age income loans score offer message
          (now env) (now env)).

(** [await newClient.save()]: rejects when validation fails or the database
    cannot be reached; otherwise the document joins the collection. *)
Definition save (env : Env) (db : list Client.t) (d : Document)
    : option Client.t * list Client.t :=
  match validate env d with
  | Some c => if db_up env then (Some c, db ++ [c]) else (None, db)
  | None => (None, db)
  end.

(** [.sort({ createdAt: -1 })] *)
Fixpoint insert_newest (c : Client.t) (cs : list Client.t) : list Client.t :=
  match cs with
  | [] => [c]
  | c' :: cs' =>
      if Client.createdAt c' <=? Client.createdAt c then c :: cs
      else c' :: insert_newest c cs'
  end.

Definition sort_newest_first (cs : list Client.t) : list Client.t :=
  foldr insert_newest [] cs.

(** [await Client.find().sort({ createdAt: -1 })] *)
Definition find_sorted (env : Env) (db : list Client.t) : option (list Client.t) :=
  if db_up env then Some (sort_newest_first db) else None.

(** ** The routes *)

Inductive JsonBody : Type :=
| Message (message : string)
| OneClient (c : Client.t)
| Clients (cs : list Client.t).

Record Response : Type := { status : Z; json : JsonBody }.

(** What a request does besides answering and writing to the collection. *)
Inductive Event : Type :=
| AxiosPost (features : list JsNum)
| ConsoleError (label : string).

(** The five answers of the two routes. *)
Definition ok_clients (clients : list Client.t) : Response :=
  {| status := 200; json := Clients clients |}.

Definition error_fetching : Response :=
  {| status := 500; json := Message "Server error while fetching clients." |}.

Definition missing_fields_answer : Response :=
  {| status := 400;
     json := Message "Please provide all required fields: name, age, income, and loans." |}.

Definition created (savedClient : Client.t) : Response :=
  {| status := 201; json := OneClient savedClient |}.

Definition error_creating : Response :=
  {| status := 500; json := Message "Server error while creating the client." |}.

(** [app.get('/api/clients')] *)
Definition get_clients (env : Env) (db : list Client.t)
    : Response * list Event * list Client.t :=
  match find_sorted env db with
  | Some clients => (ok_clients clients, [], db)
  | None => (error_fetching, [ConsoleError "Error fetching clients:"], db)
  end.

(** [const { name, age, income, loans } = req.body], [body] being the JSON
    of the request and [req.body] what [express.json()] parsed it to. *)
Definition field (body : gmap string JsValue) (key : string) : JsValue :=
  parsed (default JUndefined (body !! key)).

(** Step 1 of the POST route: the condition under which it answers 400. *)
Definition missing_fields (name age income loans : JsValue) : bool :=
  Js.not name || Js.not age || Js.not income || is_undefined loans.

(** [const features = [parseInt(age), parseInt(income), parseInt(loans)]] *)
Definition features (age income loans : JsValue) : list JsNum :=
  [parseInt age; parseInt income; parseInt loans].

(** [aiResponse.data.repayment_score]: reading a property of [null] or
    [undefined] throws; a primitive has no such property. *)
Definition repayment_score (data : ResponseData) : option JsValue :=
  match data with
  | DataValue JUndefined | DataValue JNull => None
  | DataValue _ => Some JUndefined
  | DataObject o => Some (parsed (default JUndefined (o !! "repayment_score")))
  end.

(** Step 2: the inner [try]/[catch] around the call to the scoring service.
    Returns the value of [score] and the events of the step. *)
Definition call_ai_model (env : Env) (features : list JsNum)
    : JsValue * list Event :=
  match AI_MODEL_API env features with
  | Resolved data =>
      match repayment_score data with
      | Some score => (score, [AxiosPost features])
      | None =>
          (JNumber (Dec 1 (-1)),
           [AxiosPost features; ConsoleError "Error calling AI model API:"])
      end
  | Rejected _ =>
      (JNumber (Dec 1 (-1)),
       [AxiosPost features; ConsoleError "Error calling AI model API:"])
  end.

(** Step 3: the offer and the message from the score. *)
Definition generate_offer (score name : JsValue) : string * string :=
  if gt score (Dec 8 (-1)) then
    ("خصم 15% على الفوائد",
     "تهانينا " +:+ ToString name
       +:+ "! بناءً على تقييمك الممتاز، يسعدنا أن نقدم لك خصمًا خاصًا.")
  else if gt score (Dec 5 (-1)) then
    ("تمديد فترة السداد",
     "مرحباً " +:+ ToString name
       +:+ ", أنت مؤهل لتمديد فترة سداد قرضك لتخفيف الأقساط الشهرية.")
  else
    ("مراجعة الحساب مطلوبة",
     "السيد/ة " +:+ ToString name
       +:+ ", نود تحديد موعد لمراجعة حسابك وبحث أفضل الحلول المالية لك.").

(** [app.post('/api/clients')] *)
Definition post_clients (env : Env) (db : list Client.t)
    (body : gmap string JsValue) : Response * list Event * list Client.t :=
  let name := field body "name" in
  let age := field body "age" in
  let income := field body "income" in
  let loans := field body "loans" in
  if missing_fields name age income loans then
    (missing_fields_answer, [], db)
  else
    let features := features age income loans in
    let '(score, events) := call_ai_model env features in
    let '(offer, message) := generate_offer score name in
    let newClient := new_Client name age income loans score offer message in
    match save env db newClient with
    | (Some savedClient, db') => (created savedClient, events, db')
    | (None, db') =>
        (error_creating, events ++ [ConsoleError "Error creating client:"], db')
    end.

(** ** Vocabulary of the properties *)

(** The three offer tiers, named after what the offer texts grant: a
    discount on interest, a longer repayment period, an account review. *)
Inductive Tier : Type := Premium | Extension | Review.

Definition tier_offer (t : Tier) : string :=
  match t with
  | Premium => "خصم 15% على الفوائد"
  | Extension => "تمديد فترة السداد"
  | Review => "مراجعة الحساب مطلوبة"
  end.

(** The tier an offer text belongs to. *)
Definition offer_tier (offer : string) : option Tier :=
  if String.eqb offer (tier_offer Premium) then Some Premium
  else if String.eqb offer (tier_offer Extension) then Some Extension
  else if String.eqb offer (tier_offer Review) then Some Review
  else None.

(** Review is the worst tier, premium the best. *)
Definition tier_rank (t : Tier) : nat :=
  match t with Review => 0 | Extension => 1 | Premium => 2 end.

Definition contains (needle hay : string) : Prop :=
  ∃ before after, hay = before +:+ needle +:+ after.


(** The integer a value denotes, when it is a number with an integral
    value. *)
Definition integer_value (v : JsValue) : option Z :=
  match v with
  | JNumber (Dec m e) =>
      if 0 <=? e then Some (m * 10 ^ e)
      else if m mod 10 ^ (- e) =? 0 then Some (m / 10 ^ (- e))
      else None
  | _ => None
  end.

(** A request body that is a ClientInput of the data model: a non-empty
    text [name], a positive integer [age], non-negative integers [income]
    and [loans]. *)
Definition ClientInput (body : gmap string JsValue) : Prop :=
  (∃ s, field body "name" = JString s ∧ s ≠ "")
  ∧ (∃ a, integer_value (field body "age") = Some a ∧ 0 < a)
  ∧ (∃ i, integer_value (field body "income") = Some i ∧ 0 <= i)
  ∧ (∃ l, integer_value (field body "loans") = Some l ∧ 0 <= l).

(** The number of calls to the scoring service among the events. *)
Definition is_axios_post (ev : Event) : bool :=
  match ev with AxiosPost _ => true | ConsoleError _ => false end.

Definition axios_calls (events : list Event) : nat :=
  length (List.filter is_axios_post events).

(** The presence check of the POST route on the four fields of a body. *)
Definition missing (body : gmap string JsValue) : bool :=
  missing_fields (field body "name") (field body "age") (field body "income")
    (field body "loans").

(** The feature vector, the score and the document of a request that gets
    past the presence check. *)
Definition features_of (body : gmap string JsValue) : list JsNum :=
  features (field body "age") (field body "income") (field body "loans").

Definition score_of (env : Env) (body : gmap string JsValue) : JsValue :=
  (call_ai_model env (features_of body)).1.

Definition newClient_of (env : Env) (body : gmap string JsValue) : Document :=
  let score := score_of env body in
  let name := field body "name" in
  new_Client name (field body "age") (field body "income") (field body "loans")
    score (generate_offer score name).1 (generate_offer score name).2.

(** A value the Number caster accepts as a number. *)
Definition coercible (v : JsValue) : Prop := ∃ n, castNumber v = Casted (Some n).

(** Listings are ordered by creation time, most recent first. *)
Definition newest_first (cs : list Client.t) : Prop :=
  StronglySorted (λ c c', Client.createdAt c' <= Client.createdAt c) cs.



(** *** Sample requests *)

(** U+00A0, the no-break space. *)
Definition no_break_space : string :=
  String (ascii_of_nat 194) (String (ascii_of_nat 160) "").

Definition sara : gmap string JsValue :=
  <["name" := JString "Sara"]> (<["age" := JNumber (Dec 30 0)]>
    (<["income" := JNumber (Dec 50 0)]> (<["loans" := JNumber (Dec 1 0)]> ∅))).

Definition omar : gmap string JsValue :=
  <["name" := JString "Omar"]> (<["age" := JNumber (Dec 41 0)]>
    (<["income" := JNumber (Dec 90 0)]> (<["loans" := JNumber (Dec 0 0)]> ∅))).

(** An environment in which the scoring service always gives [answer]. *)
Definition env_at (time : Z) (id : N) (answer : AxiosResult) (up : bool) : Env :=
  {| AI_MODEL_API := λ _, answer; db_up := up; now := time; fresh_id := id |}.

Definition env_answering (answer : AxiosResult) (up : bool) : Env :=
  env_at 1000 7 answer up.

(** The answer [{ "repayment_score": v }]. *)
Definition score_body (v : JsValue) : AxiosResult :=
  Resolved (DataObject {["repayment_score" := v]}).

(** The records of Sara, scored 0.9 at time 1000, and of Omar, scored 0.6
    at time 2000. *)
Definition sara_record : Client.t :=
  Client.mk 7 "Sara" (Dec 30 0) (Dec 50 0) (Dec 1 0) (Dec 9 (-1))
    (tier_offer Premium)
    (generate_offer (JNumber (Dec 9 (-1))) (JString "Sara")).2 1000 1000.

Definition omar_record : Client.t :=
  Client.mk 8 "Omar" (Dec 41 0) (Dec 90 0) (Dec 0 0) (Dec 6 (-1))
    (tier_offer Extension)
    (generate_offer (JNumber (Dec 6 (-1))) (JString "Omar")).2 2000 2000.

(** The service scores 0.9; it cannot be reached; it answers [{}]. *)
Definition scoring_09 : Env := env_answering (score_body (JNumber (Dec 9 (-1)))) true.
Definition scoring_down : Env := env_answering (Rejected "connect ECONNREFUSED") true.
Definition scoring_empty : Env := env_answering (Resolved (DataObject ∅)) true.

(** ** The dashboard: the React component [App] *)

(** [JSON.stringify] of a number: [NaN] and the infinities are written
    [null]. *)
Definition json_number (n : JsNum) : JsValue :=
  match n with
  | Dec _ _ => JNumber n
  | _ => JNull
  end.

(** One language of the [translations] table. *)
Module Tr.
Record t : Type := mk {
  title : string;
  addClient : string;
  clientName : string;
  age : string;
  annualIncome : string;
  existingLoans : string;
  submit : string;
  loading : string;
  error : string;
  repaymentScore : string;
  generatedOffer : string;
  marketingMessage : string;
  noClients : string;
  clientAdded : string;
  clientAddError : string
}.
End Tr.

Inductive Lang : Type := en | ar.

Definition translations (lang : Lang) : Tr.t :=
  match lang with
  | en =>
      Tr.mk "🏦 Smart Bank Dashboard"
        "Add New Client"
        "Client Name"
        "Age"
        "Annual Income (in thousands)"
        "Number of Existing Loans"
        "Add Client & Analyze"
        "Loading Clients..."
        "Failed to load client data. Please ensure the backend is running."
        "Repayment Score"
        "Generated Offer"
        "Personalized Message"
        "No clients found. Add one using the form above!"
        "Client added successfully!"
        "Error adding client. Please check the console."
  | ar =>
      Tr.mk "🏦 لوحة البنك الذكية"
        "إضافة عميل جديد"
        "اسم العميل"
        "العمر"
        "الدخل السنوي (بالآلاف)"
        "عدد القروض الحالية"
        "إضافة عميل وتحليل"
        "جاري تحميل العملاء..."
        "فشل تحميل بيانات العملاء. يرجى التأكد من أن الخادم يعمل."
        "درجة سداد القرض"
        "العرض المقترح"
        "رسالة تسويقية مخصصة"
        "لا يوجد عملاء. أضف عميلاً جديداً باستخدام النموذج أعلاه!"
        "تمت إضافة العميل بنجاح!"
        "خطأ في إضافة العميل. يرجى مراجعة الكونسول."
  end.

(** The server as the dashboard reaches it at [API_URL]: the environment of
    the routes, and whether the request gets through at all. *)
Record Backend : Type := {
  backend_env : Env;
  backend_up : bool
}.

(** [validateStatus] of axios: a promise resolves on a status in 2xx. *)
Definition status_ok (res : Response) : bool :=
  (200 <=? status res) && (status res <? 300).

(** What the page does that can be observed from outside: the requests it
    sends, the alerts it raises, what it logs. *)
Inductive UiEvent : Type :=
| HttpGet
| HttpPost (body : gmap string JsValue)
| Alert (message : string)
| UiConsoleError (label : string).

(** [await axios.get(API_URL)]: the listing carried by a 2xx answer; [None]
    when the promise rejects.  The GET route answers 200 with a list only,
    so a 2xx answer of another shape does not occur and is not told apart
    from a rejection. *)
Definition axios_get (b : Backend) (db : list Client.t)
    : option (list Client.t) * list Client.t :=
  if backend_up b then
    match get_clients (backend_env b) db with
    | (res, _, db') =>
        match status_ok res, json res with
        | true, Clients clients => (Some clients, db')
        | _, _ => (None, db')
        end
    end
  else (None, db).

(** [await axios.post(API_URL, body)]: the record carried by a 2xx answer;
    [None] when the promise rejects (same remark as for [axios_get]). *)
Definition axios_post (b : Backend) (db : list Client.t)
    (body : gmap string JsValue) : option Client.t * list Client.t :=
  if backend_up b then
    match post_clients (backend_env b) db body with
    | (res, _, db') =>
        match status_ok res, json res with
        | true, OneClient c => (Some c, db')
        | _, _ => (None, db')
        end
    end
  else (None, db).

Module App.

(** The state of the component: one field per [useState]. *)
Record State : Type := mk {
  clients : list Client.t;
  loading : bool;
  error : option string;
  lang : Lang;
  formState : gmap string string;
  isSubmitting : bool
}.

(** [{ name: '', age: '', income: '', loans: '' }] *)
Definition empty_form : gmap string string :=
  <["name" := ""]> (<["age" := ""]> (<["income" := ""]> (<["loans" := ""]> ∅))).

(** The state of the first render. *)
Definition initial : State := mk [] true None ar empty_form false.

(** [const t = useMemo(() => translations[lang], [lang])] *)
Definition t (st : State) : Tr.t := translations (lang st).

(** [const isRtl = lang === 'ar'] *)
Definition isRtl (st : State) : bool :=
  match lang st with ar => true | en => false end.

(** [formState.name], [formState.age], ... *)
Definition form_field (form : gmap string string) (key : string) : JsValue :=
  from_option JString JUndefined (form !! key).

(** [fetchClients], the body of the effect. *)
Definition fetchClients (b : Backend) (db : list Client.t) (st : State)
    : State * list UiEvent * list Client.t :=
  match axios_get b db with
  | (Some data, db') =>
      (mk data false None (lang st) (formState st) (isSubmitting st),
       [HttpGet], db')
  | (None, db') =>
      (mk (clients st) false (Some (Tr.error (t st))) (lang st) (formState st)
          (isSubmitting st),
       [HttpGet; UiConsoleError "Fetch error:"], db')
  end.

(** [handleInputChange]: [e.target] has the name and the value of the
    input that changed. *)
Definition handleInputChange (name value : string) (st : State) : State :=
  mk (clients st) (loading st) (error st) (lang st)
     (<[name := value]> (formState st)) (isSubmitting st).

(** The body [handleSubmit] posts, as written on the wire. *)
Definition submitted_body (form : gmap string string) : gmap string JsValue :=
  <["name" := form_field form "name"]>
    (<["age" := json_number (parseInt (form_field form "age"))]>
      (<["income" := json_number (parseInt (form_field form "income"))]>
        (<["loans" := json_number (parseInt (form_field form "loans"))]> ∅))).

(** [handleSubmit] *)
Definition handleSubmit (b : Backend) (db : list Client.t) (st : State)
    : State * list UiEvent * list Client.t :=
  let form := formState st in
  if Js.not (form_field form "name") || Js.not (form_field form "age")
     || Js.not (form_field form "income") || Js.not (form_field form "loans")
  then (st, [Alert "Please fill all fields."], db)
  else
    let body := submitted_body form in
    match axios_post b db body with
    | (Some data, db') =>
        (mk (data :: clients st) (loading st) (error st) (lang st) empty_form
            false,
         [HttpPost body], db')
    | (None, db') =>
        (mk (clients st) (loading st) (error st) (lang st) form false,
         [HttpPost body; UiConsoleError "Submit error:";
          Alert (Tr.clientAddError (t st))], db')
    end.



(** The button of the header: [setLang(lang === 'en' ? 'ar' : 'en')]. *)
Definition toggle (l : Lang) : Lang :=
  match l with en => ar | ar => en end.

(** What the user and React do to the component. *)
Inductive Action : Type :=
| Mount
| Change (name value : string)
| Submit
| SwitchLanguage.

(** One action, followed by the effect when it is due: the effect depends
    on [[t.error]], so it runs at mount and again whenever a change of
    language changes that text. *)
Definition step (b : Backend) (db : list Client.t) (st : State) (a : Action)
    : State * list UiEvent * list Client.t :=
  match a with
  | Mount => fetchClients b db st
  | Change name value => (handleInputChange name value st, [], db)
  | Submit => handleSubmit b db st
  | SwitchLanguage =>
      let st' := mk (clients st) (loading st) (error st) (toggle (lang st))
                    (formState st) (isSubmitting st) in
      if String.eqb (Tr.error (t st)) (Tr.error (t st')) then (st', [], db)
      else fetchClients b db st'
  end.

(** A session: actions in turn, each against the server as it is then. *)
Fixpoint run (script : list (Backend * Action)) (db : list Client.t)
    (st : State) : State * list Client.t :=
  match script with
  | [] => (st, db)
  | (b, a) :: script' =>
      match step b db st a with
      | (st', _, db') => run script' db' st'
      end
  end.

End App.

(** *** Vocabulary of the dashboard properties *)

(** The error shown, if any, is the fetch error text of the current
    language. *)
Definition error_in_language (st : App.State) : Prop :=
  App.error st = None ∨ App.error st = Some (Tr.error (App.t st)).

(** The clock of the server does not run behind the records it holds. *)
Definition clock_ahead (b : Backend) (db : list Client.t) : Prop :=
  Forall (λ c, Client.createdAt c <= now (backend_env b)) db.


(** Along a session, the clock of each request is not behind the records
    held when the request is made. *)
Fixpoint clocks_ahead (script : list (Backend * App.Action))
    (db : list Client.t) (st : App.State) : Prop :=
  match script with
  | [] => True
  | (b, a) :: script' =>
      clock_ahead b db
      ∧ clocks_ahead script' (App.step b db st a).2 (App.step b db st a).1.1
  end.

(** The user has typed something in the input called [key]. *)
Definition filled_in (form : gmap string string) (key : string) : Prop :=
  ∃ s, form !! key = Some s ∧ s ≠ "".

Definition all_filled_in (form : gmap string string) : Prop :=
  filled_in form "name" ∧ filled_in form "age" ∧ filled_in form "income"
  ∧ filled_in form "loans".

(** The page sent a POST request. *)
Definition posted (events : list UiEvent) : Prop :=
  ∃ body, In (HttpPost body) events.


(** *** Sample sessions *)

Definition reachable (env : Env) : Backend :=
  {| backend_env := env; backend_up := true |}.

(** The form after the user has typed [name], [age], [income], [loans]. *)
Definition filled (name age income loans : string) : App.State :=
  App.handleInputChange "loans" loans
    (App.handleInputChange "income" income
       (App.handleInputChange "age" age
          (App.handleInputChange "name" name
             (App.mk [] false None ar App.empty_form false)))).

(** *** Fractions and rounding *)

(** The numeral [Dec m e] as a fraction of integers. *)
Definition numerator (m e : Z) : Z := if 0 <=? e then m * 10 ^ e else m.
Definition denominator (e : Z) : Z := if 0 <=? e then 1 else 10 ^ (- e).

(** The integer nearest to [a / d], the even one of two equally near. *)
Definition round_half_even (a d : Z) : Z :=
  let q := a / d in
  let r := a mod d in
  if (d <? 2 * r) || ((d =? 2 * r) && Z.odd q) then q + 1 else q.

(** ** Facts about the JavaScript fragment *)

(** Settles an equation between closed terms by evaluation. *)
Ltac evaluate := vm_compute; reflexivity.

(** *** Rounding to binary64 *)

Lemma round_half_even_spec (a d : Z) :
  0 < d →
  let n := round_half_even a d in
  2 * (d * n) - d <= 2 * a <= 2 * (d * n) + d
  ∧ (2 * a = 2 * (d * n) + d → Z.even n = true)
  ∧ (2 * a = 2 * (d * n) - d → Z.even n = true).
Proof.
  intros Hd. cbv zeta. unfold round_half_even.
  pose proof (Z.div_mod a d ltac:(lia)) as Ha.
  pose proof (Z.mod_pos_bound a d Hd) as Hr.
  set (q := a / d) in *. set (r := a mod d) in *.
  destruct (Z.ltb_spec d (2 * r)) as [Hlt | Hge]; cbn [orb].
  - repeat split; try lia.
  - destruct (Z.eqb_spec d (2 * r)) as [Heq | Hne]; cbn [andb].
    + destruct (Z.odd q) eqn:Hodd.
      * repeat split; try lia.
        intros _. rewrite Z.even_add, <- Z.negb_odd, Hodd. reflexivity.
      * repeat split; try lia.
        intros _. rewrite <- Z.negb_odd, Hodd. reflexivity.
    + repeat split; try lia.
Qed.

Lemma round_half_even_le (a d N : Z) :
  0 < d → a <= N * d → round_half_even a d <= N.
Proof.
  intros Hd Ha. destruct (round_half_even_spec a d Hd) as [[Hlo _] _]. nia.
Qed.

Lemma round_half_even_ge (a d N : Z) :
  0 < d → N * d <= a → N <= round_half_even a d.
Proof.
  intros Hd Ha. destruct (round_half_even_spec a d Hd) as [[_ Hhi] _]. nia.
Qed.

Lemma round_half_even_mono (a1 d1 a2 d2 : Z) :
  0 < d1 → 0 < d2 → a1 * d2 <= a2 * d1 →
  round_half_even a1 d1 <= round_half_even a2 d2.
Proof.
  intros Hd1 Hd2 Hle.
  destruct (round_half_even_spec a1 d1 Hd1) as [[Hlo1 _] [_ Hev1]].
  destruct (round_half_even_spec a2 d2 Hd2) as [[_ Hhi2] [Hev2 _]].
  set (n1 := round_half_even a1 d1) in *. set (n2 := round_half_even a2 d2) in *.
  destruct (Z_le_gt_dec n1 n2) as [|Hgt]; [assumption | exfalso].
  assert (H1 : (2 * n2 + 1) * (d1 * d2) <= 2 * a1 * d2) by nia.
  assert (H2 : 2 * a2 * d1 <= (2 * n2 + 1) * (d1 * d2)) by nia.
  assert (Hn : n1 = n2 + 1) by nia.
  assert (E1 : 2 * a1 = 2 * (d1 * n1) - d1) by nia.
  assert (E2 : 2 * a2 = 2 * (d2 * n2) + d2) by nia.
  specialize (Hev1 E1). specialize (Hev2 E2).
  rewrite Hn, Z.even_add, Hev2 in Hev1. discriminate.
Qed.

(** The binade of a quotient. *)
Lemma binade_small (A b : Z) :
  0 <= A → 0 < b → A < b * 2 ^ 53 → binade A b <= 52.
Proof.
  intros HA Hb Hlt. unfold binade.
  remember (Z.log2 A - Z.log2 b) as k eqn:Ek.
  destruct (Z.ltb_spec A (Z.shiftl b k)); [| ].
  - destruct (Z.eq_dec A 0) as [-> | HA0].
    + cbn [Z.log2] in Ek. pose proof (Z.log2_nonneg b). lia.
    + pose proof (Z.log2_spec A ltac:(lia)) as [HlA _].
      pose proof (Z.log2_spec b Hb) as [_ Hub].
      assert (2 ^ Z.log2 A < 2 ^ (Z.succ (Z.log2 b) + 53)).
      { rewrite Z.pow_add_r by (pose proof (Z.log2_nonneg b); lia). nia. }
      apply Z.pow_lt_mono_r_iff in H0; [lia |lia|].
      pose proof (Z.log2_nonneg b); lia.
  - destruct (Z_le_gt_dec k 52); [assumption | exfalso].
    rewrite Z.shiftl_mul_pow2 in H by lia.
    assert (2 ^ 53 <= 2 ^ k) by (apply Z.pow_le_mono_r; lia). nia.
Qed.

Lemma binade_large (A b : Z) :
  0 < b → b * 2 ^ 53 <= A →
  53 <= binade A b ∧ b * 2 ^ binade A b <= A < b * 2 ^ (binade A b + 1).
Proof.
  intros Hb Hle.
  assert (HA : 0 < A) by nia.
  pose proof (Z.log2_spec A HA) as [HlA HuA].
  pose proof (Z.log2_spec b Hb) as [Hlb Hub].
  pose proof (Z.log2_nonneg b) as Hnb.
  pose proof (Z.log2_nonneg A) as HnA.
  unfold binade. remember (Z.log2 A - Z.log2 b) as k eqn:Ek.
  assert (Hk : 53 <= k).
  { assert (2 ^ (Z.log2 b + 53) < 2 ^ Z.succ (Z.log2 A)).
    { rewrite Z.pow_add_r by lia. nia. }
    apply Z.pow_lt_mono_r_iff in H; lia. }
  assert (E : 2 ^ Z.log2 A = 2 ^ Z.log2 b * 2 ^ k).
  { rewrite <- Z.pow_add_r by lia. f_equal. lia. }
  rewrite Z.shiftl_mul_pow2 by lia.
  assert (0 < 2 ^ k) by (apply Z.pow_pos_nonneg; lia).
  assert (0 < 2 ^ Z.log2 b) by (apply Z.pow_pos_nonneg; lia).
  destruct (Z.ltb_spec A (b * 2 ^ k)).
  - assert (E' : 2 ^ k = 2 * 2 ^ (k - 1)).
    { rewrite <- Z.pow_succ_r by lia. f_equal. lia. }
    replace (k - 1 + 1) with k by lia.
    assert (54 <= k).
    { destruct (Z.eq_dec k 53) as [E53 | ]; [| lia]. rewrite E53 in *. lia. }
    split; [lia |]. split; [| lia].
    rewrite Z.pow_succ_r in Hub by lia.
    assert (0 < 2 ^ (k - 1)) by (apply Z.pow_pos_nonneg; lia).
    assert (b * 2 ^ (k - 1) <= 2 * 2 ^ Z.log2 b * 2 ^ (k - 1)) by nia.
    lia.
  - split; [lia |]. split; [lia |].
    rewrite Z.pow_add_r by lia. rewrite Z.pow_succ_r in * by lia.
    change (2 ^ 1) with 2. nia.
Qed.

Lemma round_units_eq (A b : Z) :
  0 <= A → 0 < b →
  let w := Z.max (binade A b - 52) 0 in
  round_units A b = round_half_even A (b * 2 ^ w) * 2 ^ w.
Proof.
  intros HA Hb w. unfold round_units. fold w.
  assert (Hw : 0 <= w) by lia.
  assert (Hp : 0 < 2 ^ w) by (apply Z.pow_pos_nonneg; lia).
  rewrite !Z.shiftl_mul_pow2, Z.shiftr_div_pow2 by lia.
  unfold round_half_even.
  rewrite Z.div_div by lia.
  replace (2 ^ w * b) with (b * 2 ^ w) by lia.
  set (q := A / (b * 2 ^ w)).
  replace (A - q * b * 2 ^ w) with (A mod (b * 2 ^ w)); [reflexivity |].
  rewrite Z.mod_eq by nia. fold q. lia.
Qed.

Lemma round_units_nonneg (A b : Z) : 0 <= A → 0 < b → 0 <= round_units A b.
Proof.
  intros HA Hb. rewrite round_units_eq by assumption. cbv zeta.
  set (w := Z.max _ _).
  assert (Hp : 0 < 2 ^ w) by (apply Z.pow_pos_nonneg; lia).
  assert (0 <= round_half_even A (b * 2 ^ w)).
  { apply (round_half_even_ge _ _ 0); nia. }
  nia.
Qed.

Lemma round_units_mono (A1 b1 A2 b2 : Z) :
  0 <= A1 → 0 < b1 → 0 < b2 → A1 * b2 <= A2 * b1 →
  round_units A1 b1 <= round_units A2 b2.
Proof.
  intros HA1 Hb1 Hb2 Hle.
  assert (HA2 : 0 <= A2) by nia.
  rewrite !round_units_eq by assumption. cbv zeta.
  destruct (Z_lt_le_dec A2 (b2 * 2 ^ 53)) as [Hs2 | Hl2].
  - assert (Hs1 : A1 < b1 * 2 ^ 53) by nia.
    pose proof (binade_small A1 b1 HA1 Hb1 Hs1).
    pose proof (binade_small A2 b2 HA2 Hb2 Hs2).
    rewrite !Z.max_r by lia. change (2 ^ 0) with 1. rewrite !Z.mul_1_r.
    apply round_half_even_mono; assumption.
  - destruct (binade_large A2 b2 Hb2 Hl2) as (HK2 & Hlo2 & Hhi2).
    set (K2 := binade A2 b2) in *.
    rewrite (Z.max_l (K2 - 52)) by lia.
    assert (Hp2 : 0 < 2 ^ (K2 - 52)) by (apply Z.pow_pos_nonneg; lia).
    assert (E2 : 2 ^ K2 = 2 ^ 52 * 2 ^ (K2 - 52)).
    { rewrite <- Z.pow_add_r by lia. f_equal. lia. }
    assert (G2 : 2 ^ K2 <= round_half_even A2 (b2 * 2 ^ (K2 - 52)) * 2 ^ (K2 - 52)).
    { rewrite E2. apply Z.mul_le_mono_nonneg_r; [lia |].
      apply round_half_even_ge; nia. }
    destruct (Z_lt_le_dec A1 (b1 * 2 ^ 53)) as [Hs1 | Hl1].
    + pose proof (binade_small A1 b1 HA1 Hb1 Hs1).
      rewrite Z.max_r by lia. change (2 ^ 0) with 1. rewrite !Z.mul_1_r.
      assert (round_half_even A1 b1 <= 2 ^ 53) by (apply round_half_even_le; lia).
      assert (2 ^ 53 <= 2 ^ K2) by (apply Z.pow_le_mono_r; lia).
      lia.
    + destruct (binade_large A1 b1 Hb1 Hl1) as (HK1 & Hlo1 & Hhi1).
      set (K1 := binade A1 b1) in *.
      rewrite (Z.max_l (K1 - 52)) by lia.
      assert (Hp1 : 0 < 2 ^ (K1 - 52)) by (apply Z.pow_pos_nonneg; lia).
      assert (HK : K1 <= K2).
      { assert (2 ^ K1 < 2 ^ (K2 + 1)) by nia.
        apply Z.pow_lt_mono_r_iff in H; lia. }
      destruct (Z.eq_dec K1 K2) as [E | Hne].
      * rewrite E. apply Z.mul_le_mono_nonneg_r; [lia |].
        apply round_half_even_mono; nia.
      * assert (E1 : 2 ^ (K1 + 1) = 2 ^ 53 * 2 ^ (K1 - 52)).
        { rewrite <- Z.pow_add_r by lia. f_equal. lia. }
        assert (round_half_even A1 (b1 * 2 ^ (K1 - 52)) <= 2 ^ 53).
        { apply round_half_even_le; nia. }
        assert (2 ^ (K1 + 1) <= 2 ^ K2) by (apply Z.pow_le_mono_r; lia).
        nia.
Qed.

Lemma denominator_pos (e : Z) : 0 < denominator e.
Proof.
  unfold denominator. destruct (Z.leb_spec 0 e); [lia |].
  apply Z.pow_pos_nonneg; lia.
Qed.

(** A numeral is the quotient of its numerator by its denominator. *)
Lemma dec_value_fraction (m e : Z) :
  (dec_value m e * inject_Z (denominator e) == inject_Z (numerator m e))%Q.
Proof.
  unfold dec_value, numerator, denominator.
  destruct (Z.leb_spec 0 e) as [He | He].
  - rewrite Qmult_1_r, inject_Z_mult, Zpower_Qpower by assumption. reflexivity.
  - rewrite Zpower_Qpower by lia. change (inject_Z 10) with (10 # 1)%Q.
    rewrite <- Qmult_assoc, <- Qpower_plus by discriminate.
    replace (e + - e) with 0 by lia. apply Qmult_1_r.
Qed.

Lemma dec_value_le (m1 e1 m2 e2 : Z) :
  (dec_value m1 e1 <= dec_value m2 e2)%Q
  ↔ numerator m1 e1 * denominator e2 <= numerator m2 e2 * denominator e1.
Proof.
  pose proof (denominator_pos e1) as H1. pose proof (denominator_pos e2) as H2.
  assert (Hpos : (0 < inject_Z (denominator e1) * inject_Z (denominator e2))%Q).
  { rewrite <- inject_Z_mult, <- (Zlt_Qlt 0). nia. }
  rewrite <- (Qmult_le_r _ _ _ Hpos), Zle_Qle, !inject_Z_mult.
  rewrite <- !dec_value_fraction.
  assert (E1 : (dec_value m1 e1 * (inject_Z (denominator e1) * inject_Z (denominator e2))
                == dec_value m1 e1 * inject_Z (denominator e1) * inject_Z (denominator e2))%Q)
    by ring.
  assert (E2 : (dec_value m2 e2 * (inject_Z (denominator e1) * inject_Z (denominator e2))
                == dec_value m2 e2 * inject_Z (denominator e2) * inject_Z (denominator e1))%Q)
    by ring.
  rewrite E1, E2. reflexivity.
Qed.

Lemma numerator_sign (m e : Z) :
  (m < 0 → numerator m e < 0) ∧ (0 <= m → 0 <= numerator m e)
  ∧ Z.abs (numerator m e) = numerator (Z.abs m) e.
Proof.
  unfold numerator. destruct (Z.leb_spec 0 e); [| lia].
  assert (0 < 10 ^ e) by (apply Z.pow_pos_nonneg; lia).
  repeat split; nia.
Qed.

(** The fraction rounded is the numeral, in units of 2^-1074. *)
Lemma fraction_spec (m e : Z) :
  fraction m e = (Z.abs (numerator m e) * 2 ^ 1074, denominator e).
Proof.
  destruct (numerator_sign m e) as (_ & _ & ->).
  unfold fraction, numerator, denominator.
  destruct (0 <=? e); by rewrite Z.shiftl_mul_pow2.
Qed.

Lemma magnitude_spec (m e : Z) :
  magnitude m e =
    Z.min (round_units (Z.abs (numerator m e) * 2 ^ 1074) (denominator e))
      infinity_units.
Proof.
  unfold magnitude. rewrite fraction_spec.
  destruct m; try reflexivity.
  replace (numerator 0 e) with 0 by (unfold numerator; destruct (0 <=? e); lia).
  change (Z.abs 0 * 2 ^ 1074) with 0.
  assert (round_units 0 (denominator e) = 0) as ->; [| reflexivity].
  pose proof (denominator_pos e) as Hd.
  rewrite round_units_eq by lia. cbv zeta.
  rewrite (Z.max_r (binade 0 (denominator e) - 52)).
  - change (2 ^ 0) with 1. rewrite !Z.mul_1_r. unfold round_half_even.
    rewrite Z.div_0_l, Z.mod_0_l by lia. change (2 * 0) with 0.
    rewrite (proj2 (Z.ltb_ge _ _)), (proj2 (Z.eqb_neq _ _)) by lia. reflexivity.
  - pose proof (binade_small 0 (denominator e)). lia.
Qed.

Lemma magnitude_nonneg (m e : Z) : 0 <= magnitude m e.
Proof.
  rewrite magnitude_spec. apply Z.min_glb; [| vm_compute; discriminate].
  apply round_units_nonneg; [lia | apply denominator_pos].
Qed.

(** Rounding is monotone: the order of two numerals is that of the numbers
    they are read as, or these are equal. *)
Lemma binary64_units_mono (m1 e1 m2 e2 : Z) :
  (dec_value m1 e1 <= dec_value m2 e2)%Q →
  binary64_units m1 e1 <= binary64_units m2 e2.
Proof.
  rewrite dec_value_le. intros Hle.
  pose proof (denominator_pos e1) as Hd1. pose proof (denominator_pos e2) as Hd2.
  pose proof (magnitude_nonneg m1 e1) as Hn1.
  pose proof (magnitude_nonneg m2 e2) as Hn2.
  destruct (numerator_sign m1 e1) as (Hneg1 & Hpos1 & _).
  destruct (numerator_sign m2 e2) as (Hneg2 & Hpos2 & _).
  unfold binary64_units, signed.
  destruct (Z.ltb_spec m1 0) as [Hm1 | Hm1], (Z.ltb_spec m2 0) as [Hm2 | Hm2].
  - specialize (Hneg1 Hm1). specialize (Hneg2 Hm2).
    rewrite !magnitude_spec. apply Z.opp_le_mono. rewrite !Z.opp_involutive.
    apply Z.min_le_compat_r, round_units_mono; nia.
  - lia.
  - specialize (Hpos1 Hm1). specialize (Hneg2 Hm2). nia.
  - specialize (Hpos1 Hm1). specialize (Hpos2 Hm2).
    rewrite !magnitude_spec.
    apply Z.min_le_compat_r, round_units_mono; nia.
Qed.

(** A numeral of magnitude one or more is not read as zero. *)
Lemma magnitude_pos (m e : Z) :
  denominator e <= Z.abs (numerator m e) → 0 < magnitude m e.
Proof.
  intros Hle. rewrite magnitude_spec.
  pose proof (denominator_pos e) as Hd.
  apply Z.min_glb_lt; [| vm_compute; reflexivity].
  apply Z.lt_le_trans with (round_units (1 * 2 ^ 1074) 1);
    [vm_compute; reflexivity |].
  apply round_units_mono; nia.
Qed.

(** The comparison of two numerals is that of the numbers they are read
    as. *)
Lemma gt_units (m e m' e' : Z) :
  gt (JNumber (Dec m e)) (Dec m' e') = (binary64_units m' e' <? binary64_units m e).
Proof. reflexivity. Qed.

Lemma binary64_value_lt (m e m' e' : Z) :
  (binary64_value m e < binary64_value m' e')%Q
  ↔ binary64_units m e < binary64_units m' e'.
Proof.
  unfold binary64_value, Qlt. cbn [Qnum Qden].
  set (d := Z.pos _). assert (0 < d) by done. split; nia.
Qed.

Lemma binary64_value_le (m e m' e' : Z) :
  (binary64_value m e <= binary64_value m' e')%Q
  ↔ binary64_units m e <= binary64_units m' e'.
Proof.
  unfold binary64_value, Qle. cbn [Qnum Qden].
  set (d := Z.pos _). assert (0 < d) by done. split; nia.
Qed.

Lemma gt_finite_true (m e m' e' : Z) :
  gt (JNumber (Dec m e)) (Dec m' e') = true
  ↔ (binary64_value m' e' < binary64_value m e)%Q.
Proof. rewrite gt_units, binary64_value_lt. apply Z.ltb_lt. Qed.

Lemma gt_finite_false (m e m' e' : Z) :
  gt (JNumber (Dec m e)) (Dec m' e') = false
  ↔ (binary64_value m e <= binary64_value m' e')%Q.
Proof. rewrite gt_units, binary64_value_le. apply Z.ltb_ge. Qed.

(** A comparison that fails for a numeral fails for every smaller one. *)
Lemma gt_false_mono (m1 e1 m2 e2 : Z) (n : JsNum) :
  (dec_value m1 e1 <= dec_value m2 e2)%Q →
  gt (JNumber (Dec m2 e2)) n = false → gt (JNumber (Dec m1 e1)) n = false.
Proof.
  intros Hle%binary64_units_mono. unfold gt, num_gt. cbn [ToNumber number_units].
  destruct (number_units n) as [u |]; [| done].
  rewrite !Z.ltb_ge. lia.
Qed.

(** From here on a rounding is either computed, by [evaluate], or reasoned
    about through the lemmas above. *)
Opaque round_units shortest.

(** The three number literals of the route, as binary64 numbers: 0.8 is
    3602879701896397 / 2^52, 0.5 is exact, 0.1 is 3602879701896397 / 2^55. *)
Lemma eight_tenths :
  (binary64_value 8 (-1) == 3602879701896397 # 4503599627370496)%Q.
Proof. vm_compute. reflexivity. Qed.

Lemma five_tenths : (binary64_value 5 (-1) == 1 # 2)%Q.
Proof. vm_compute. reflexivity. Qed.

Lemma one_tenth :
  (binary64_value 1 (-1) == 3602879701896397 # 36028797018963968)%Q.
Proof. vm_compute. reflexivity. Qed.


Lemma parseInt_zero (e : Z) : parseInt (JNumber (Dec 0 e)) = Dec 0 0.
Proof. reflexivity. Qed.

Lemma eqb_nonempty (s : string) : s ≠ "" → String.eqb s "" = false.
Proof. intros Hs. by apply String.eqb_neq. Qed.

(** ** The offer step *)

(** The offer text, read off the two comparisons. *)
Lemma generate_offer_branch (score name : JsValue) :
  (generate_offer score name).1 =
    if gt score (Dec 8 (-1)) then tier_offer Premium
    else if gt score (Dec 5 (-1)) then tier_offer Extension
    else tier_offer Review.
Proof.
  unfold generate_offer.
  destruct (gt score (Dec 8 (-1))); [reflexivity |].
  destruct (gt score (Dec 5 (-1))); reflexivity.
Qed.

Lemma generate_offer_message (score name : JsValue) :
  contains (ToString name) (generate_offer score name).2.
Proof.
  unfold generate_offer, contains.
  destruct (gt score (Dec 8 (-1))); [| destruct (gt score (Dec 5 (-1)))];
    cbn [snd]; eexists _, _; reflexivity.
Qed.

Lemma generate_offer_nonempty (score name : JsValue) :
  String.eqb (generate_offer score name).1 "" = false
  ∧ String.eqb (generate_offer score name).2 "" = false.
Proof.
  unfold generate_offer.
  destruct (gt score (Dec 8 (-1))); [| destruct (gt score (Dec 5 (-1)))];
    split; reflexivity.
Qed.

Lemma tier_offer_inj (t t' : Tier) : tier_offer t = tier_offer t' → t = t'.
Proof. destruct t, t'; intros H; try reflexivity; discriminate H. Qed.

Lemma offer_tier_of_tier (t : Tier) : offer_tier (tier_offer t) = Some t.
Proof. destruct t; reflexivity. Qed.

Lemma generate_offer_some_tier (score name : JsValue) :
  ∃ t, (generate_offer score name).1 = tier_offer t.
Proof.
  rewrite generate_offer_branch.
  destruct (gt score (Dec 8 (-1))); [| destruct (gt score (Dec 5 (-1)))];
    eexists; reflexivity.
Qed.

(** The numerals that frame the two thresholds, as they are written. *)
Lemma written_eight_tenths : (dec_value 8 (-1) == 8 # 10)%Q.
Proof. reflexivity. Qed.

Lemma written_five_tenths : (dec_value 5 (-1) == 1 # 2)%Q.
Proof. reflexivity. Qed.

Lemma written_above_eight_tenths :
  (dec_value 8000000000000001 (-16) == 8000000000000001 # 10000000000000000)%Q.
Proof. reflexivity. Qed.

Lemma written_above_five_tenths :
  (dec_value 5000000000000001 (-16) == 5000000000000001 # 10000000000000000)%Q.
Proof. reflexivity. Qed.

Section FiniteScore.

Variables (m e : Z) (name : JsValue).

Let s : Q := binary64_value m e.
Let offer : string := (generate_offer (JNumber (Dec m e)) name).1.

Lemma premium_above :
  (binary64_value 8 (-1) < s)%Q → offer = tier_offer Premium.
Proof.
  subst s offer. intros H.
  apply gt_finite_true in H. by rewrite generate_offer_branch, H.
Qed.

Lemma extension_between :
  (binary64_value 5 (-1) < s)%Q → (s <= binary64_value 8 (-1))%Q →
  offer = tier_offer Extension.
Proof.
  subst s offer. intros Hlo Hhi.
  apply gt_finite_true in Hlo. apply gt_finite_false in Hhi.
  by rewrite generate_offer_branch, Hhi, Hlo.
Qed.

Lemma review_below :
  (s <= binary64_value 5 (-1))%Q → offer = tier_offer Review.
Proof.
  subst s offer. intros Hlo.
  assert (Hhi : (binary64_value m e <= binary64_value 8 (-1))%Q).
  { eapply Qle_trans; [exact Hlo |]. vm_compute. discriminate. }
  apply gt_finite_false in Hlo. apply gt_finite_false in Hhi.
  by rewrite generate_offer_branch, Hhi, Hlo.
Qed.

(** The same in terms of the numeral as it is written. *)
Lemma review_up_to : (dec_value m e <= 1 # 2)%Q → offer = tier_offer Review.
Proof.
  intros Hle. apply review_below. subst s.
  apply binary64_value_le, (binary64_units_mono m e 5 (-1)).
  by rewrite written_five_tenths.
Qed.

Lemma premium_from :
  (8000000000000001 # 10000000000000000 <= dec_value m e)%Q →
  offer = tier_offer Premium.
Proof.
  intros Hle. apply premium_above. subst s.
  apply binary64_value_lt.
  apply Z.lt_le_trans with (binary64_units 8000000000000001 (-16));
    [vm_compute; reflexivity |].
  apply binary64_units_mono. by rewrite written_above_eight_tenths.
Qed.

Lemma extension_from :
  (5000000000000001 # 10000000000000000 <= dec_value m e)%Q →
  (dec_value m e <= 8 # 10)%Q → offer = tier_offer Extension.
Proof.
  intros Hlo Hhi. apply extension_between; subst s.
  - apply binary64_value_lt.
    apply Z.lt_le_trans with (binary64_units 5000000000000001 (-16));
      [vm_compute; reflexivity |].
    apply binary64_units_mono. by rewrite written_above_five_tenths.
  - apply binary64_value_le, (binary64_units_mono m e 8 (-1)).
    by rewrite written_eight_tenths.
Qed.

End FiniteScore.

(** C1. The offer step compares the score, a binary64 number [s], with the
    binary64 numbers 0.8 and 0.5: it gives the premium offer when [s > 0.8],
    the extension offer when [0.5 < s <= 0.8] and the review offer when
    [s <= 0.5]; the scores 0.8 and 0.5 themselves fall in the lower tier, and
    the message of every tier contains the client's name.  In terms of the
    numeral the scoring service writes: one up to 0.5 gives the review
    offer, one from 0.5000000000000001 up to 0.8 the extension offer, one
    from 0.8000000000000001 the premium offer, 0.8 and 0.5 being the numbers
    these two are read as. *)
Theorem generate_offer_tiers (m e : Z) (name : string) :
  let s := binary64_value m e in
  let r := generate_offer (JNumber (Dec m e)) (JString name) in
  ((binary64_value 8 (-1) < s)%Q → r.1 = tier_offer Premium)
  ∧ ((binary64_value 5 (-1) < s)%Q ∧ (s <= binary64_value 8 (-1))%Q →
     r.1 = tier_offer Extension)
  ∧ ((s <= binary64_value 5 (-1))%Q → r.1 = tier_offer Review)
  ∧ contains name r.2
  ∧ (generate_offer (JNumber (Dec 8 (-1))) (JString name)).1 = tier_offer Extension
  ∧ (generate_offer (JNumber (Dec 5 (-1))) (JString name)).1 = tier_offer Review
  ∧ ((dec_value m e <= 1 # 2)%Q → r.1 = tier_offer Review)
  ∧ ((5000000000000001 # 10000000000000000 <= dec_value m e)%Q
     ∧ (dec_value m e <= 8 # 10)%Q → r.1 = tier_offer Extension)
  ∧ ((8000000000000001 # 10000000000000000 <= dec_value m e)%Q →
     r.1 = tier_offer Premium).
Proof.
  cbv zeta. split; [| split; [| split; [| split; [| split; [| split; [| split; [| split]]]]]]].
  - apply premium_above.
  - intros [Hlo Hhi]. by apply extension_between.
  - apply review_below.
  - apply (generate_offer_message _ (JString name)).
  - apply extension_between; vm_compute; [reflexivity | discriminate].
  - apply review_below. vm_compute. discriminate.
  - apply review_up_to.
  - intros [Hlo Hhi]. by apply extension_from.
  - apply premium_from.
Qed.

Lemma generate_offer_tiers_witness :
  (generate_offer (JNumber (Dec 9 (-1))) (JString "Sara")).1 = tier_offer Premium
  ∧ (generate_offer (JNumber (Dec 65 (-2))) (JString "Sara")).1 = tier_offer Extension
  ∧ (generate_offer (JNumber (Dec 2 (-1))) (JString "Sara")).1 = tier_offer Review.
Proof.
  split; [| split].
  - apply (proj1 (generate_offer_tiers 9 (-1) "Sara")). vm_compute. reflexivity.
  - apply (proj1 (proj2 (generate_offer_tiers 65 (-2) "Sara"))).
    split; vm_compute; [reflexivity | discriminate].
  - apply (proj1 (proj2 (proj2 (generate_offer_tiers 2 (-1) "Sara")))).
    vm_compute. discriminate.
Defined.

(** The scores around the two thresholds: a numeral that is read as 0.8 or
    as 0.5 falls in the lower tier like them, the next binary64 number falls
    in the upper one. *)
Example around_thresholds :
  (generate_offer (JNumber (Dec 80000000000000001 (-17))) (JString "Sara")).1
    = tier_offer Extension
  ∧ (generate_offer (JNumber (Dec 8000000000000001 (-16))) (JString "Sara")).1
    = tier_offer Premium
  ∧ (generate_offer (JNumber (Dec 50000000000000001 (-17))) (JString "Sara")).1
    = tier_offer Review
  ∧ (generate_offer (JNumber (Dec 5000000000000001 (-16))) (JString "Sara")).1
    = tier_offer Extension.
Proof. split; [| split; [| split]]; vm_compute; reflexivity. Qed.

(** C7. The tiering is total: whatever the score, exactly one of the three
    tiers is selected.  It is monotonic on finite scores: a higher score
    never selects a worse tier. *)
Theorem tiering_total_monotone :
  (∀ score name : JsValue,
     ∃ t, offer_tier (generate_offer score name).1 = Some t
          ∧ ∀ t', (generate_offer score name).1 = tier_offer t' → t' = t)
  ∧ (∀ (m1 e1 m2 e2 : Z) (name1 name2 : JsValue) (t1 t2 : Tier),
       (dec_value m1 e1 <= dec_value m2 e2)%Q →
       offer_tier (generate_offer (JNumber (Dec m1 e1)) name1).1 = Some t1 →
       offer_tier (generate_offer (JNumber (Dec m2 e2)) name2).1 = Some t2 →
       (tier_rank t1 ≤ tier_rank t2)%nat).
Proof.
  split.
  - intros score name. destruct (generate_offer_some_tier score name) as [t Ht].
    exists t. rewrite Ht. split; [apply offer_tier_of_tier |].
    intros t' Ht'. symmetry. by apply tier_offer_inj.
  - intros m1 e1 m2 e2 name1 name2 t1 t2 Hle H1 H2.
    rewrite generate_offer_branch in H1, H2.
    destruct (gt (JNumber (Dec m2 e2)) (Dec 8 (-1))) eqn:Hp2.
    { cbn in H2. injection H2 as <-. destruct t1; cbn; lia. }
    rewrite (gt_false_mono _ _ _ _ _ Hle Hp2) in H1.
    destruct (gt (JNumber (Dec m2 e2)) (Dec 5 (-1))) eqn:He2.
    { cbn in H2. injection H2 as <-.
      destruct (gt (JNumber (Dec m1 e1)) (Dec 5 (-1)));
        cbn in H1; injection H1 as <-; cbn; lia. }
    rewrite (gt_false_mono _ _ _ _ _ Hle He2) in H1.
    cbn in H1, H2. injection H1 as <-. injection H2 as <-. cbn; lia.
Qed.

Lemma tiering_total_monotone_witness :
  (tier_rank Review ≤ tier_rank Premium)%nat.
Proof.
  apply (proj2 tiering_total_monotone 3 (-1) 9 (-1) (JString "Sara") (JString "Sara")).
  - discriminate.
  - vm_compute. reflexivity.
  - vm_compute. reflexivity.
Defined.

(** ** The listing *)

Lemma insert_newest_perm (c : Client.t) (cs : list Client.t) :
  Permutation (insert_newest c cs) (c :: cs).
Proof.
  induction cs as [| c' cs IH]; cbn; [reflexivity |].
  destruct (Client.createdAt c' <=? Client.createdAt c); [reflexivity |].
  rewrite IH. apply perm_swap.
Qed.

Lemma sort_newest_first_perm (cs : list Client.t) :
  Permutation (sort_newest_first cs) cs.
Proof.
  induction cs as [| c cs IH]; cbn; [reflexivity |].
  rewrite insert_newest_perm. by constructor.
Qed.

Lemma insert_newest_sorted (c : Client.t) (cs : list Client.t) :
  newest_first cs → newest_first (insert_newest c cs).
Proof.
  unfold newest_first. induction 1 as [| c' cs Hs IH Hall]; cbn.
  - constructor; constructor.
  - destruct (Client.createdAt c' <=? Client.createdAt c) eqn:Hcmp.
    + apply Z.leb_le in Hcmp. constructor; [by constructor |].
      constructor; [exact Hcmp |].
      eapply Forall_impl; [exact Hall |]. cbn. intros; lia.
    + apply Z.leb_gt in Hcmp. constructor; [exact IH |].
      rewrite (insert_newest_perm c cs). constructor; [lia | exact Hall].
Qed.

Lemma sort_newest_first_sorted (cs : list Client.t) :
  newest_first (sort_newest_first cs).
Proof.
  induction cs as [| c cs IH]; cbn; [constructor |].
  by apply insert_newest_sorted.
Qed.

(** A record newer than all the others is listed first. *)
Lemma sort_newest_first_newer (c : Client.t) (cs : list Client.t) :
  Forall (λ c', Client.createdAt c' < Client.createdAt c) cs →
  sort_newest_first (cs ++ [c]) = c :: sort_newest_first cs.
Proof.
  induction 1 as [| c' cs Hlt _ IH]; [reflexivity |].
  cbn. unfold sort_newest_first in IH. rewrite IH. cbn.
  apply Z.leb_gt in Hlt. by rewrite Hlt.
Qed.

(** C8. The listing route changes nothing in the collection.  With the
    database reachable it answers 200 with all the persisted records,
    ordered by creation time, most recent first; a record created after all
    the others comes first.  Otherwise it answers 500, its only failure. *)
Theorem get_clients_newest_first (env : Env) (db : list Client.t) :
  (get_clients env db).2 = db
  ∧ (if db_up env then
       ∃ clients, (get_clients env db).1 = (ok_clients clients, [])
                  ∧ Permutation clients db ∧ newest_first clients
     else
       (get_clients env db).1 =
         (error_fetching, [ConsoleError "Error fetching clients:"]))
  ∧ ∀ c, db_up env = true →
         Forall (λ c', Client.createdAt c' < Client.createdAt c) db →
         ∃ older, (get_clients env (db ++ [c])).1.1 = ok_clients (c :: older)
                  ∧ Permutation older db.
Proof.
  unfold get_clients, find_sorted. split; [by destruct (db_up env) |]. split.
  - destruct (db_up env); [| reflexivity].
    eexists. split; [reflexivity |].
    split; [apply sort_newest_first_perm | apply sort_newest_first_sorted].
  - intros c -> Hnew. rewrite (sort_newest_first_newer c db Hnew).
    eexists. split; [reflexivity | apply sort_newest_first_perm].
Qed.

Lemma get_clients_newest_first_witness :
  ∃ older, (get_clients (env_at 3000 9 (Rejected "unused") true)
              ([sara_record] ++ [omar_record])).1.1
           = ok_clients (omar_record :: older)
           ∧ Permutation older [sara_record].
Proof.
  apply (proj2 (proj2 (get_clients_newest_first
           (env_at 3000 9 (Rejected "unused") true) [sara_record]))).
  - reflexivity.
  - constructor; [reflexivity | constructor].
Defined.

(** ** The steps of the POST route *)

Section ScoringStep.

Variables (env : Env) (fs : list JsNum).

Lemma call_ai_model_events :
  ∃ rest, (call_ai_model env fs).2 = AxiosPost fs :: rest
          ∧ axios_calls rest = 0%nat.
Proof.
  unfold call_ai_model.
  destruct (AI_MODEL_API env fs) as [? | data]; [| destruct (repayment_score data)];
    eexists; split; reflexivity.
Qed.

Lemma call_ai_model_once : axios_calls (call_ai_model env fs).2 = 1%nat.
Proof.
  destruct call_ai_model_events as (rest & -> & Hrest).
  unfold axios_calls in *. cbn. by rewrite Hrest.
Qed.

Lemma call_ai_model_post (fs' : list JsNum) :
  In (AxiosPost fs') (call_ai_model env fs).2 → fs' = fs.
Proof.
  unfold call_ai_model.
  destruct (AI_MODEL_API env fs) as [? | data]; [| destruct (repayment_score data)];
    cbn; intros H; repeat destruct H as [H | H]; congruence || contradiction.
Qed.

Lemma call_ai_model_rejected (reason : string) :
  AI_MODEL_API env fs = Rejected reason →
  call_ai_model env fs =
    (JNumber (Dec 1 (-1)),
     [AxiosPost fs; ConsoleError "Error calling AI model API:"]).
Proof. unfold call_ai_model. by intros ->. Qed.

Lemma call_ai_model_resolved (data : ResponseData) (v : JsValue) :
  AI_MODEL_API env fs = Resolved data → repayment_score data = Some v →
  call_ai_model env fs = (v, [AxiosPost fs]).
Proof. unfold call_ai_model. by intros -> ->. Qed.

End ScoringStep.

Lemma required_number_some (v : JsValue) (n : JsNum) :
  required_number (castNumber v) = Some n ↔ castNumber v = Casted (Some n).
Proof.
  destruct (castNumber v) as [| [n' |]]; cbn; split; intros H;
    try discriminate H; congruence.
Qed.

Lemma not_coercible_required (v : JsValue) :
  ¬ coercible v → required_number (castNumber v) = None.
Proof.
  intros Hv. destruct (required_number (castNumber v)) as [n |] eqn:Hr; [| done].
  destruct Hv. exists n. by apply required_number_some.
Qed.

Lemma castNumber_number (n n' : JsNum) :
  castNumber (JNumber n) = Casted (Some n') → n' = n.
Proof. cbn. destruct (isNaN n); [discriminate | congruence]. Qed.

Lemma missing_fields_undefined (name age income loans : JsValue) :
  name = JUndefined ∨ age = JUndefined ∨ income = JUndefined ∨ loans = JUndefined →
  missing_fields name age income loans = true.
Proof.
  unfold missing_fields.
  intros [-> | [-> | [-> | ->]]]; cbn; by rewrite ?orb_true_r.
Qed.

(** The ways the route ends, for one request. *)
Section PostRoute.

Variables (env : Env) (db : list Client.t) (body : gmap string JsValue).

Let events : list Event := (call_ai_model env (features_of body)).2.

Lemma post_clients_missing :
  missing body = true →
  post_clients env db body = (missing_fields_answer, [], db).
Proof. unfold post_clients, missing. by intros ->. Qed.

Lemma post_clients_present :
  missing body = false →
  post_clients env db body =
    match save env db (newClient_of env body) with
    | (Some savedClient, db') => (created savedClient, events, db')
    | (None, db') =>
        (error_creating, events ++ [ConsoleError "Error creating client:"], db')
    end.
Proof.
  subst events.
  unfold post_clients, missing, newClient_of, score_of, features_of. intros ->.
  destruct (call_ai_model env _) as [score evs]. cbn [fst snd].
  destruct (generate_offer score _) as [offer message]. reflexivity.
Qed.

Lemma post_clients_saved (c : Client.t) :
  missing body = false →
  validate env (newClient_of env body) = Some c → db_up env = true →
  post_clients env db body = (created c, events, db ++ [c]).
Proof.
  intros Hp Hv Hup. rewrite post_clients_present by done.
  unfold save. by rewrite Hv, Hup.
Qed.

Lemma post_clients_not_saved :
  missing body = false →
  validate env (newClient_of env body) = None ∨ db_up env = false →
  post_clients env db body =
    (error_creating, events ++ [ConsoleError "Error creating client:"], db).
Proof.
  intros Hp Hv. rewrite post_clients_present by done. unfold save.
  destruct (validate env _); [| done].
  destruct Hv as [Hv | ->]; [discriminate Hv | done].
Qed.

Lemma post_clients_created_inv (db' : list Client.t) (c : Client.t)
    (evs : list Event) :
  post_clients env db body = (created c, evs, db') →
  missing body = false
  ∧ validate env (newClient_of env body) = Some c
  ∧ evs = events ∧ db' = db ++ [c].
Proof.
  destruct (missing body) eqn:Hmiss.
  { rewrite post_clients_missing by done. discriminate. }
  rewrite post_clients_present by done. unfold save.
  destruct (validate env (newClient_of env body)) as [c' |]; [| discriminate].
  destruct (db_up env); [| discriminate].
  by intros [= -> <- <-].
Qed.

(** A call to the scoring service among the events of the request is the
    call of step 2, made after the presence check. *)
Lemma post_clients_called (fs : list JsNum) :
  In (AxiosPost fs) (post_clients env db body).1.2 →
  missing body = false ∧ fs = features_of body.
Proof.
  destruct (missing body) eqn:Hmiss.
  { rewrite post_clients_missing by done. intros []. }
  rewrite post_clients_present by done. intros Hcall. split; [done |].
  destruct (save env db _) as [[c |] db']; cbn in Hcall.
  - by apply call_ai_model_post in Hcall.
  - apply in_app_or in Hcall as [Hcall | [Hcall | []]]; [| discriminate].
    by apply call_ai_model_post in Hcall.
Qed.

(** What [validate] demands of the document the route builds. *)
Lemma validate_newClient :
  validate env (newClient_of env body) =
    name ← required_string (castString (field body "name"));
    age ← required_number (castNumber (field body "age"));
    income ← required_number (castNumber (field body "income"));
    loans ← required_number (castNumber (field body "loans"));
    score ← required_number (castNumber (score_of env body));
    Some (Client.mk (fresh_id env) name age income loans score
            (generate_offer (score_of env body) (field body "name")).1
            (generate_offer (score_of env body) (field body "name")).2
            (now env) (now env)).
Proof.
  unfold validate, newClient_of, new_Client. cbn.
  destruct (generate_offer_nonempty (score_of env body) (field body "name"))
    as [Ho Hm].
  rewrite Ho, Hm.
  destruct (required_string _); [| done].
  repeat (destruct (required_number _); [| done]). reflexivity.
Qed.

End PostRoute.

(** ** Requests that are ClientInputs *)

(** Settles [ClientInput] on a body given in full. *)
Ltac client_input := repeat split; eexists; (split; [evaluate | done]).

Lemma integer_value_inv (v : JsValue) (z : Z) :
  integer_value v = Some z →
  ∃ m e, v = JNumber (Dec m e) ∧ (magnitude m e = 0 ↔ z = 0).
Proof.
  destruct v as [| | | [| |m e] |]; try discriminate. cbn.
  intros H. exists m, e. split; [reflexivity |].
  assert (Hz : (m = 0 ↔ z = 0) ∧ (z ≠ 0 → denominator e <= Z.abs (numerator m e))).
  { unfold numerator, denominator. destruct (0 <=? e) eqn:He.
    - apply Z.leb_le in He. injection H as <-.
      assert (0 < 10 ^ e) by (apply Z.pow_pos_nonneg; lia). nia.
    - apply Z.leb_gt in He.
      assert (Hd : 0 < 10 ^ (- e)) by (apply Z.pow_pos_nonneg; lia).
      destruct (m mod 10 ^ (- e) =? 0) eqn:Hm; [| discriminate].
      apply Z.eqb_eq in Hm. injection H as <-.
      pose proof (Z.div_mod m (10 ^ (- e)) ltac:(lia)) as Hdm.
      rewrite Hm in Hdm. nia. }
  destruct Hz as [Hm Hbig]. split.
  - intros Hmag. destruct (Z.eq_dec z 0) as [| Hne]; [done |].
    pose proof (magnitude_pos m e (Hbig Hne)). lia.
  - intros Hz. apply Hm in Hz as ->. reflexivity.
Qed.

Section ValidInput.

Variables (env : Env) (body : gmap string JsValue).
Hypothesis Hinput : ClientInput body.

Lemma ClientInput_fields :
  ∃ s ma ea mi ei ml el,
    field body "name" = JString s ∧ s ≠ ""
    ∧ field body "age" = JNumber (Dec ma ea) ∧ magnitude ma ea ≠ 0
    ∧ field body "income" = JNumber (Dec mi ei)
    ∧ (magnitude mi ei = 0 ↔ integer_value (field body "income") = Some 0)
    ∧ field body "loans" = JNumber (Dec ml el).
Proof.
  destruct Hinput
    as ((s & Hs & Hne) & (a & Ha & Hpos) & (i & Hi & Hi0) & (l & Hl & Hl0)).
  destruct (integer_value_inv _ _ Ha) as (ma & ea & Hage & Hma).
  destruct (integer_value_inv _ _ Hi) as (mi & ei & Hinc & Hmi).
  destruct (integer_value_inv _ _ Hl) as (ml & el & Hloans & _).
  exists s, ma, ea, mi, ei, ml, el. repeat split; try done.
  - intros Hz. assert (a = 0) by by apply Hma. lia.
  - intros Hz. apply Hmi in Hz. by rewrite Hi, Hz.
  - rewrite Hi. intros [= ->]. by apply Hmi.
Qed.

(** A ClientInput is stopped by the presence check exactly when its income
    is zero. *)
Lemma ClientInput_missing :
  missing body = true ↔ integer_value (field body "income") = Some 0.
Proof.
  destruct ClientInput_fields
    as (s & ma & ea & mi & ei & ml & el & Hn & Hs & Ha & Hma & Hi & Hmi & Hl).
  rewrite <- Hmi. unfold missing, missing_fields, Js.not.
  rewrite Hn, Ha, Hi, Hl. cbn [ToBoolean is_undefined].
  rewrite (eqb_nonempty s Hs).
  apply Z.eqb_neq in Hma. rewrite Hma. cbn [negb orb].
  rewrite orb_false_r, negb_involutive. apply Z.eqb_eq.
Qed.

Lemma ClientInput_present :
  integer_value (field body "income") ≠ Some 0 → missing body = false.
Proof. intros Hinc. apply not_true_is_false. by rewrite ClientInput_missing. Qed.

(** The schema accepts a ClientInput as soon as it accepts the score. *)
Lemma ClientInput_validate :
  ∃ name age income loans,
    field body "name" = JString name
    ∧ field body "age" = JNumber age
    ∧ field body "income" = JNumber income
    ∧ field body "loans" = JNumber loans
    ∧ validate env (newClient_of env body) =
        score ← required_number (castNumber (score_of env body));
        Some (Client.mk (fresh_id env) name age income loans score
                (generate_offer (score_of env body) (field body "name")).1
                (generate_offer (score_of env body) (field body "name")).2
                (now env) (now env)).
Proof.
  destruct ClientInput_fields
    as (s & ma & ea & mi & ei & ml & el & Hn & Hs & Ha & Hma & Hinc & Hmi & Hl).
  exists s, (Dec ma ea), (Dec mi ei), (Dec ml el).
  rewrite validate_newClient, Hn, Ha, Hinc, Hl. cbn.
  by rewrite (eqb_nonempty s Hs).
Qed.

End ValidInput.

(** ** Onboarding when the scoring service fails *)

(** C2. When the call to the scoring service made for a ClientInput is
    rejected, the call is not repeated, the score is the constant 0.1 and
    the route goes on: with the database reachable it answers 201 with a
    persisted record whose score is 0.1 and whose offer is the review offer;
    the only failure left is that of the database. *)
Theorem scoring_failure_falls_back (env : Env) (db : list Client.t)
    (body : gmap string JsValue) (fs : list JsNum) (reason : string) :
  ClientInput body →
  In (AxiosPost fs) (post_clients env db body).1.2 →
  AI_MODEL_API env fs = Rejected reason →
  axios_calls (post_clients env db body).1.2 = 1%nat
  ∧ score_of env body = JNumber (Dec 1 (-1))
  ∧ if db_up env then
      ∃ c, post_clients env db body =
             (created c,
              [AxiosPost fs; ConsoleError "Error calling AI model API:"],
              db ++ [c])
           ∧ Client.score c = Dec 1 (-1)
           ∧ Client.offer c = tier_offer Review
    else
      post_clients env db body =
        (error_creating,
         [AxiosPost fs; ConsoleError "Error calling AI model API:";
          ConsoleError "Error creating client:"], db).
Proof.
  intros Hin Hcall Hrej.
  apply post_clients_called in Hcall as [Hmiss ->].
  pose proof (call_ai_model_rejected env _ reason Hrej) as Hstep.
  assert (Hscore : score_of env body = JNumber (Dec 1 (-1))).
  { unfold score_of. by rewrite Hstep. }
  destruct (ClientInput_validate env body Hin)
    as (name & age & income & loans & _ & _ & _ & _ & Hval).
  rewrite Hscore in Hval. cbn in Hval.
  destruct (db_up env) eqn:Hup.
  - rewrite (post_clients_saved env db body _ Hmiss Hval Hup), Hstep.
    split; [reflexivity | split; [exact Hscore |]].
    eexists. split; [reflexivity |]. split; [reflexivity |].
    cbn [Client.offer]. rewrite generate_offer_branch. evaluate.
  - rewrite (post_clients_not_saved env db body Hmiss (or_intror Hup)), Hstep.
    split; [reflexivity | split; [exact Hscore | reflexivity]].
Qed.

Lemma scoring_failure_falls_back_witness :
  ∃ c, post_clients scoring_down [] sara =
         (created c,
          [AxiosPost [Dec 30 0; Dec 50 0; Dec 1 0];
           ConsoleError "Error calling AI model API:"], [] ++ [c])
       ∧ Client.score c = Dec 1 (-1)
       ∧ Client.offer c = tier_offer Review.
Proof.
  refine (proj2 (proj2 (scoring_failure_falls_back scoring_down [] sara
            [Dec 30 0; Dec 50 0; Dec 1 0] "connect ECONNREFUSED" _ _ _))).
  - client_input.
  - vm_compute. left. reflexivity.
  - reflexivity.
Defined.

(** ** Onboarding when the scoring service answers *)

(** C3, as the code has it. When the scoring service
    answers a ClientInput with a body whose score is absent or is not a
    number, the score is left as it is found instead of being replaced by
    0.1, the schema refuses the record and the route answers 500 without
    persisting anything. *)
Theorem malformed_score_is_not_replaced (env : Env) (db : list Client.t)
    (body : gmap string JsValue) (data : ResponseData) (v : JsValue) :
  ClientInput body →
  integer_value (field body "income") ≠ Some 0 →
  AI_MODEL_API env (features_of body) = Resolved data →
  repayment_score data = Some v →
  ¬ coercible v →
  score_of env body = v
  ∧ post_clients env db body =
      (error_creating,
       [AxiosPost (features_of body); ConsoleError "Error creating client:"],
       db).
Proof.
  intros Hin Hinc Hres Hdata Hv.
  pose proof (ClientInput_present body Hin Hinc) as Hmiss.
  pose proof (call_ai_model_resolved env _ data v Hres Hdata) as Hstep.
  assert (Hscore : score_of env body = v) by (unfold score_of; by rewrite Hstep).
  split; [exact Hscore |].
  destruct (ClientInput_validate env body Hin)
    as (name & age & income & loans & _ & _ & _ & _ & Hval).
  rewrite Hscore, (not_coercible_required v Hv) in Hval.
  by rewrite (post_clients_not_saved env db body Hmiss (or_introl Hval)), Hstep.
Qed.

Lemma malformed_score_is_not_replaced_witness :
  score_of scoring_empty sara = JUndefined
  ∧ post_clients scoring_empty [] sara =
      (error_creating,
       [AxiosPost (features_of sara); ConsoleError "Error creating client:"],
       []).
Proof.
  apply (malformed_score_is_not_replaced scoring_empty [] sara
           (DataObject ∅) JUndefined).
  - client_input.
  - vm_compute. discriminate.
  - reflexivity.
  - reflexivity.
  - intros [n Hn]. discriminate Hn.
Defined.

(** An answer without a body is another matter: reading the score throws,
    and the fallback applies. *)
Example null_body_falls_back :
  score_of (env_answering (Resolved (DataValue JNull)) true) sara
  = JNumber (Dec 1 (-1)).
Proof. evaluate. Qed.





(** A service that is down is no obstacle either. *)
Example onboarding_while_the_service_is_down :
  ∃ c, post_clients scoring_down [] sara =
         (created c, (call_ai_model scoring_down (features_of sara)).2, [c])
       ∧ Client.score c = Dec 1 (-1).
Proof. eexists. split; evaluate. Qed.

(** The scenario of the specification: Sara, 30, 50, 1 and a service that
    scores 0.9. *)
Example sara_gets_the_premium_offer :
  ∃ c, post_clients scoring_09 [] sara =
         (created c, [AxiosPost [Dec 30 0; Dec 50 0; Dec 1 0]], [c])
       ∧ Client.offer c = tier_offer Premium
       ∧ Client.score c = Dec 9 (-1)
       ∧ contains "Sara" (Client.message c).
Proof.
  eexists. split; [evaluate |]. split; [evaluate |]. split; [evaluate |].
  apply (generate_offer_message (JNumber (Dec 9 (-1))) (JString "Sara")).
Qed.

(** ** The presence check *)




(** What is coercible and what the service is sent are two matters: the age
    ["12abc"] is not a number for the schema while [parseInt] reads 12 in
    it; an age written with a no-break space before 12 is the number 12 for
    both, and the client is onboarded. *)
Example leading_integer_is_not_coercible :
  castNumber (JString "12abc") = CastError
  ∧ parseInt (JString "12abc") = Dec 12 0
  ∧ post_clients scoring_09 [] (<["age" := JString "12abc"]> sara)
    = (error_creating,
       [AxiosPost [Dec 12 0; Dec 50 0; Dec 1 0];
        ConsoleError "Error creating client:"], []).
Proof. split; [| split]; evaluate. Qed.

Example no_break_space_is_white_space :
  castNumber (JString (no_break_space +:+ "12")) = Casted (Some (Dec 12 0))
  ∧ parseInt (JString (no_break_space +:+ "12")) = Dec 12 0
  ∧ ∃ c, post_clients scoring_09 []
           (<["age" := JString (no_break_space +:+ "12")]> sara)
         = (created c, [AxiosPost [Dec 12 0; Dec 50 0; Dec 1 0]], [c])
         ∧ Client.age c = Dec 12 0.
Proof.
  split; [evaluate | split; [evaluate |]]. eexists. split; evaluate.
Qed.

(** C6. When one of the four fields is absent from the body, the route
    answers 400 at once: the scoring service is not called, the collection
    is left as it was, and a listing made afterwards is the listing made
    before. *)
Theorem absent_field_fails_fast (env : Env) (db : list Client.t)
    (body : gmap string JsValue) (key : string) :
  In key ["name"; "age"; "income"; "loans"] →
  body !! key = None →
  post_clients env db body = (missing_fields_answer, [], db)
  ∧ axios_calls (post_clients env db body).1.2 = 0%nat
  ∧ ∀ env', get_clients env' (post_clients env db body).2 = get_clients env' db.
Proof.
  intros Hkey Habsent.
  assert (Hpost : post_clients env db body = (missing_fields_answer, [], db)).
  { apply post_clients_missing, missing_fields_undefined. unfold field.
    cbn in Hkey. destruct Hkey as [<- | [<- | [<- | [<- | []]]]];
      rewrite Habsent; cbn; auto. }
  rewrite Hpost. by repeat split.
Qed.

Lemma absent_field_fails_fast_witness :
  post_clients scoring_09 [] (delete "loans" sara)
  = (missing_fields_answer, [], []).
Proof.
  apply (proj1 (absent_field_fails_fast scoring_09 [] (delete "loans" sara) "loans"
                  ltac:(cbn; tauto) ltac:(evaluate))).
Defined.

(** C9. A numeric zero in income or in age, that is a number read as
    zero, makes the presence check answer 400: no call to the scoring
    service, nothing persisted.  A numeric zero in loans does not: with the
    other three fields present the request goes on to the scoring call, with
    0 as third feature; and when the name is a text, age and income are
    numbers for the schema, the scoring step leaves a number and the
    database is reachable, the record is persisted with loans = 0 and
    returned with 201. *)
Theorem zero_income_or_age_is_missing_zero_loans_is_not (env : Env)
    (db : list Client.t) (body : gmap string JsValue) (m e : Z) :
  magnitude m e = 0 →
  (body !! "income" = Some (JNumber (Dec m e))
   ∨ body !! "age" = Some (JNumber (Dec m e)) →
   post_clients env db body = (missing_fields_answer, [], db))
  ∧ (body !! "loans" = Some (JNumber (Dec m e)) →
     Js.not (field body "name") = false →
     Js.not (field body "age") = false →
     Js.not (field body "income") = false →
     status (post_clients env db body).1.1 ≠ 400
     ∧ (∃ rest,
          (post_clients env db body).1.2 =
            AxiosPost [parseInt (field body "age"); parseInt (field body "income");
                       Dec 0 0] :: rest)
     ∧ ((∃ s, field body "name" = JString s) →
        coercible (field body "age") → coercible (field body "income") →
        coercible (score_of env body) → db_up env = true →
        ∃ c, post_clients env db body =
               (created c, (call_ai_model env (features_of body)).2, db ++ [c])
             ∧ Client.loans c = Dec 0 0)).
Proof.
  intros Hzero.
  assert (Hread : ∀ key, body !! key = Some (JNumber (Dec m e)) →
                         field body key = JNumber (Dec 0 0)).
  { intros key Hkey. unfold field. rewrite Hkey. cbn. by rewrite Hzero. }
  split.
  - intros Hkey. apply post_clients_missing. unfold missing, missing_fields.
    destruct Hkey as [Hkey | Hkey]; rewrite (Hread _ Hkey); cbn;
      by rewrite ?orb_true_r.
  - intros Hloans%Hread Hname Hage Hincome.
    assert (Hmiss : missing body = false).
    { unfold missing, missing_fields. by rewrite Hname, Hage, Hincome, Hloans. }
    pose proof (post_clients_present env db body Hmiss) as Hpost.
    destruct (call_ai_model_events env (features_of body)) as (rest & Hev & _).
    assert (Hfs : features_of body =
                    [parseInt (field body "age"); parseInt (field body "income");
                     Dec 0 0]).
    { unfold features_of, features. by rewrite Hloans. }
    split; [| split].
    + rewrite Hpost. by destruct (save env db _) as [[c |] db'].
    + rewrite Hpost, <- Hfs.
      destruct (save env db _) as [[c |] db']; cbn; rewrite Hev; by eexists.
    + intros [s Hs] [age Ha] [income Hi] [score Hsc] Hup.
      assert (Hne : String.eqb s "" = false).
      { rewrite Hs in Hname. unfold Js.not in Hname. cbn in Hname.
        by apply negb_false_iff, negb_true_iff in Hname. }
      eexists. split.
      * apply post_clients_saved; [done | | done].
        rewrite validate_newClient, Hs, Ha, Hi, Hloans, Hsc. cbn.
        rewrite Hne. reflexivity.
      * reflexivity.
Qed.

Lemma zero_income_or_age_is_missing_zero_loans_is_not_witness :
  post_clients scoring_09 [] (<["income" := JNumber (Dec 0 0)]> sara)
  = (missing_fields_answer, [], [])
  ∧ ∃ c, post_clients scoring_09 [] omar =
           (created c, (call_ai_model scoring_09 (features_of omar)).2, [] ++ [c])
         ∧ Client.loans c = Dec 0 0.
Proof.
  split.
  - apply (proj1 (zero_income_or_age_is_missing_zero_loans_is_not
             scoring_09 [] (<["income" := JNumber (Dec 0 0)]> sara) 0 0 eq_refl)).
    left. reflexivity.
  - apply (proj2 (zero_income_or_age_is_missing_zero_loans_is_not
             scoring_09 [] omar 0 0 eq_refl)); try evaluate.
    + by eexists.
    + eexists. evaluate.
    + eexists. evaluate.
    + eexists. evaluate.
Defined.

(** A client without loans is onboarded; a number too small for binary64
    is a zero like any other; the string ["0"] is not the number zero, and
    is let through as an age. *)
Example zero_loans_is_onboarded :
  ∃ c, post_clients scoring_09 [] omar =
         (created c, [AxiosPost [Dec 41 0; Dec 90 0; Dec 0 0]], [c])
       ∧ Client.loans c = Dec 0 0.
Proof. eexists. split; evaluate. Qed.

Example underflow_is_zero :
  post_clients scoring_09 [] (<["age" := JNumber (Dec 1 (-400))]> sara)
  = (missing_fields_answer, [], []).
Proof. evaluate. Qed.

Example string_zero_is_present :
  missing (<["age" := JString "0"]> sara) = false.
Proof. evaluate. Qed.

(** ** What a persisted record holds *)

(** C10. In the record of a successful onboarding, name, age, income and
    loans are the submitted values as the schema types them (the cast of
    each), hence exactly the submitted values when the name is a text and
    the other three are numbers; they are never the integers parsed for the
    feature vector.  What the route adds is the score, the offer and the
    message of the scoring and offer steps, the identity and the two
    timestamps. *)
Theorem persisted_fields_are_the_submitted_ones (env : Env)
    (db db' : list Client.t) (body : gmap string JsValue) (c : Client.t)
    (events : list Event) :
  post_clients env db body = (created c, events, db') →
  (castString (field body "name") = Casted (Some (Client.name c))
   ∧ castNumber (field body "age") = Casted (Some (Client.age c))
   ∧ castNumber (field body "income") = Casted (Some (Client.income c))
   ∧ castNumber (field body "loans") = Casted (Some (Client.loans c)))
  ∧ (∀ s, field body "name" = JString s → Client.name c = s)
  ∧ (∀ n, field body "age" = JNumber n → Client.age c = n)
  ∧ (∀ n, field body "income" = JNumber n → Client.income c = n)
  ∧ (∀ n, field body "loans" = JNumber n → Client.loans c = n)
  ∧ (castNumber (score_of env body) = Casted (Some (Client.score c))
     ∧ (Client.offer c, Client.message c) =
         generate_offer (score_of env body) (field body "name")
     ∧ Client._id c = fresh_id env
     ∧ Client.createdAt c = now env
     ∧ Client.updatedAt c = now env).
Proof.
  intros Hpost. apply post_clients_created_inv in Hpost as (_ & Hval & _ & _).
  rewrite validate_newClient in Hval.
  destruct (required_string (castString (field body "name"))) as [name |] eqn:Hn;
    [| discriminate].
  destruct (required_number (castNumber (field body "age"))) as [age |] eqn:Ha;
    [| discriminate].
  destruct (required_number (castNumber (field body "income"))) as [income |] eqn:Hi;
    [| discriminate].
  destruct (required_number (castNumber (field body "loans"))) as [loans |] eqn:Hl;
    [| discriminate].
  destruct (required_number (castNumber (score_of env body))) as [score |] eqn:Hs;
    [| discriminate].
  cbn in Hval. injection Hval as <-. cbn.
  apply required_number_some in Ha, Hi, Hl, Hs.
  assert (Hname : castString (field body "name") = Casted (Some name)).
  { destruct (castString (field body "name")) as [| [s |]]; try discriminate.
    cbn in Hn. destruct (String.eqb s ""); [discriminate | congruence]. }
  split; [done |].
  split; [intros s Hbody; rewrite Hbody in Hname; cbn in Hname; congruence |].
  split; [intros n Hbody; rewrite Hbody in Ha; by apply castNumber_number in Ha |].
  split; [intros n Hbody; rewrite Hbody in Hi; by apply castNumber_number in Hi |].
  split; [intros n Hbody; rewrite Hbody in Hl; by apply castNumber_number in Hl |].
  repeat split; try done. by destruct (generate_offer _ _).
Qed.

Lemma persisted_fields_are_the_submitted_ones_witness :
  ∃ c, post_clients scoring_09 [] (<["age" := JNumber (Dec 305 (-1))]> sara)
       = (created c, [AxiosPost [Dec 30 0; Dec 50 0; Dec 1 0]], [c])
       ∧ Client.age c = Dec 305 (-1).
Proof.
  eexists. split; [evaluate |].
  eapply (proj1 (proj2 (proj2 (persisted_fields_are_the_submitted_ones
            scoring_09 [] _ (<["age" := JNumber (Dec 305 (-1))]> sara) _ _ _)))).
  evaluate.
  Unshelve. all: try evaluate.
Defined.

(** ** Two onboardings and a listing *)

(** Sara is onboarded at time 1000, Omar at time 2000; the listing gives
    Omar first. *)
Example listing_after_two_onboardings :
  (post_clients scoring_09 [] sara).2 = [sara_record]
  ∧ (post_clients (env_at 2000 8 (score_body (JNumber (Dec 6 (-1)))) true)
       [sara_record] omar).2 = [sara_record; omar_record]
  ∧ (get_clients scoring_09 [sara_record; omar_record]).1.1
    = ok_clients [omar_record; sara_record].
Proof. split; [| split]; evaluate. Qed.

(** ** What every request to the POST route does *)


Lemma required_string_ToString (v : JsValue) (s : string) :
  required_string (castString v) = Some s → ToString v = s ∧ s ≠ "".
Proof.
  destruct v as [| | b | n | s']; cbn; try discriminate;
    (destruct (String.eqb _ "") eqn:He; [discriminate |]);
    intros [= <-]; (split; [reflexivity |]); by apply String.eqb_neq.
Qed.


(** The record of a 201, field by field. *)
Lemma created_record (env : Env) (db db' : list Client.t)
    (body : gmap string JsValue) (c : Client.t) (evs : list Event) :
  post_clients env db body = (created c, evs, db') →
  ToString (field body "name") = Client.name c ∧ Client.name c ≠ ""
  ∧ castNumber (field body "age") = Casted (Some (Client.age c))
  ∧ castNumber (field body "income") = Casted (Some (Client.income c))
  ∧ castNumber (field body "loans") = Casted (Some (Client.loans c))
  ∧ castNumber (score_of env body) = Casted (Some (Client.score c))
  ∧ (Client.offer c, Client.message c)
    = generate_offer (score_of env body) (field body "name")
  ∧ Client._id c = fresh_id env
  ∧ Client.createdAt c = now env ∧ Client.updatedAt c = now env
  ∧ db' = db ++ [c].
Proof.
  intros Hpost. apply post_clients_created_inv in Hpost as (_ & Hval & _ & ->).
  rewrite validate_newClient in Hval.
  destruct (required_string (castString (field body "name"))) as [name |] eqn:Hn;
    [| discriminate].
  destruct (required_number (castNumber (field body "age"))) as [age |] eqn:Ha;
    [| discriminate].
  destruct (required_number (castNumber (field body "income"))) as [income |] eqn:Hi;
    [| discriminate].
  destruct (required_number (castNumber (field body "loans"))) as [loans |] eqn:Hl;
    [| discriminate].
  destruct (required_number (castNumber (score_of env body))) as [score |] eqn:Hs;
    [| discriminate].
  cbn in Hval. injection Hval as <-. cbn.
  apply required_number_some in Ha, Hi, Hl, Hs.
  apply required_string_ToString in Hn as [Hn Hne].
  repeat split; try done. by destruct (generate_offer _ _).
Qed.

Lemma post_clients_cases (env : Env) (db : list Client.t)
    (body : gmap string JsValue) :
  (∃ c, post_clients env db body =
          (created c, (call_ai_model env (features_of body)).2, db ++ [c])
        ∧ Client._id c = fresh_id env
        ∧ Client.createdAt c = now env ∧ Client.updatedAt c = now env)
  ∨ ((post_clients env db body).2 = db
     ∧ ((post_clients env db body).1.1 = missing_fields_answer
        ∨ (post_clients env db body).1.1 = error_creating)).
Proof.
  destruct (missing body) eqn:Hmiss.
  { right. rewrite post_clients_missing by done. auto. }
  destruct (validate env (newClient_of env body)) as [c |] eqn:Hval.
  2: { right. rewrite post_clients_not_saved by auto. auto. }
  destruct (db_up env) eqn:Hup.
  2: { right. rewrite post_clients_not_saved by auto. auto. }
  left. exists c.
  pose proof (post_clients_saved env db body c Hmiss Hval Hup) as Hpost.
  split; [exact Hpost |].
  by destruct (created_record _ _ _ _ _ _ Hpost)
    as (_ & _ & _ & _ & _ & _ & _ & ? & ? & ? & _).
Qed.

(** X2. The POST route has three outcomes.  It answers 201, and then the
    collection is the old one with the new record, stamped with the
    identity and the time of the request, added at its end; or it answers
    the 400 of the presence check or the 500 of a failed creation, and
    then the collection is untouched.  Records already stored are never
    altered or removed. *)
Theorem post_clients_appends (env : Env) (db : list Client.t)
    (body : gmap string JsValue) :
  (∃ c, post_clients env db body =
          (created c, (call_ai_model env (features_of body)).2, db ++ [c])
        ∧ Client._id c = fresh_id env
        ∧ Client.createdAt c = now env ∧ Client.updatedAt c = now env)
  ∨ ((post_clients env db body).2 = db
     ∧ ((post_clients env db body).1.1 = missing_fields_answer
        ∨ (post_clients env db body).1.1 = error_creating)).
Proof.
  destruct (missing body) eqn:Hmiss.
  { right. rewrite post_clients_missing by done. auto. }
  destruct (validate env (newClient_of env body)) as [c |] eqn:Hval.
  2: { right. rewrite post_clients_not_saved by auto. auto. }
  destruct (db_up env) eqn:Hup.
  2: { right. rewrite post_clients_not_saved by auto. auto. }
  left. exists c.
  pose proof (post_clients_saved env db body c Hmiss Hval Hup) as Hpost.
  split; [exact Hpost |].
  by destruct (created_record _ _ _ _ _ _ Hpost)
    as (_ & _ & _ & _ & _ & _ & _ & ? & ? & ? & _).
Qed.









(** ** The dashboard and the server *)

Lemma validate_not_coercible (env : Env) (body : gmap string JsValue) :
  ¬ coercible (field body "age") ∨ ¬ coercible (field body "income")
    ∨ ¬ coercible (field body "loans") →
  validate env (newClient_of env body) = None.
Proof.
  intros Hbad. rewrite validate_newClient.
  destruct (required_string _); [cbn | done].
  destruct Hbad as [H | [H | H]]; apply not_coercible_required in H;
    rewrite H; cbn; [done | |];
    repeat (destruct (required_number _); cbn; try done).
Qed.

Section Requests.

Variables (b : Backend) (db : list Client.t).

Lemma axios_get_some (data db' : list Client.t) :
  axios_get b db = (Some data, db') →
  db' = db ∧ data = sort_newest_first db.
Proof.
  unfold axios_get, get_clients, find_sorted.
  destruct (backend_up b); [| discriminate].
  destruct (db_up (backend_env b)); cbn; [| discriminate].
  by intros [= <- <-].
Qed.

Lemma axios_get_none (db' : list Client.t) :
  axios_get b db = (None, db') → db' = db.
Proof.
  unfold axios_get, get_clients, find_sorted.
  destruct (backend_up b); [| by intros [= <-]].
  destruct (db_up (backend_env b)); cbn; [discriminate | by intros [= <-]].
Qed.

Lemma axios_get_up :
  backend_up b = true → db_up (backend_env b) = true →
  axios_get b db = (Some (sort_newest_first db), db).
Proof. unfold axios_get, get_clients, find_sorted. by intros -> ->. Qed.

Lemma axios_post_some (body : gmap string JsValue) (c : Client.t)
    (db' : list Client.t) :
  axios_post b db body = (Some c, db') →
  backend_up b = true
  ∧ post_clients (backend_env b) db body =
      (created c, (call_ai_model (backend_env b) (features_of body)).2, db')
  ∧ db' = db ++ [c].
Proof.
  unfold axios_post. destruct (backend_up b); [| discriminate].
  destruct (post_clients_cases (backend_env b) db body)
    as [(c' & Hpost & _) | [Hdb [Hres | Hres]]].
  - rewrite Hpost. cbn. by intros [= <- <-].
  - destruct (post_clients _ db body) as [[res evs] db'']. cbn in *.
    subst res. discriminate.
  - destruct (post_clients _ db body) as [[res evs] db'']. cbn in *.
    subst res. discriminate.
Qed.

Lemma axios_post_none (body : gmap string JsValue) (db' : list Client.t) :
  axios_post b db body = (None, db') → db' = db.
Proof.
  unfold axios_post. destruct (backend_up b); [| by intros [= <-]].
  destruct (post_clients_cases (backend_env b) db body)
    as [(c' & Hpost & _) | [Hdb _]].
  - rewrite Hpost. discriminate.
  - destruct (post_clients _ db body) as [[res evs] db'']. cbn in *. subst db''.
    destruct (status_ok res), (json res); by intros [= <-].
Qed.

(** A request the server does not answer in 2xx is a rejected promise. *)
Lemma axios_post_refused (body : gmap string JsValue) (res : Response)
    (evs : list Event) :
  post_clients (backend_env b) db body = (res, evs, db) →
  status_ok res = false →
  axios_post b db body = (None, db).
Proof.
  unfold axios_post. intros -> Hres. rewrite Hres.
  by destruct (backend_up b).
Qed.

End Requests.

(** A number that has been read is not changed by being read again, and
    [parseInt] returns such a number. *)
Lemma binary64_idem (n : JsNum) : binary64 (binary64 n) = binary64 n.
Proof.
  destruct n as [| negative | m e]; try reflexivity. cbn.
  destruct (magnitude m e =? 0) eqn:H0; [reflexivity |].
  destruct (magnitude m e =? infinity_units) eqn:Hinf; [reflexivity |].
  cbn. by rewrite H0, Hinf.
Qed.

Lemma parseInt_shape (v : JsValue) :
  parseInt v = NaN ∨ ∃ z, parseInt v = binary64 (Dec z 0).
Proof.
  unfold parseInt, parseInt_string.
  destruct (split_sign _) as [negative cs].
  destruct (match cs with
            | "0"%char :: "x"%char :: cs' => _
            | _ => _
            end) as [radix cs'].
  destruct (span_digits radix cs').1; [by left | right; by eexists].
Qed.

Lemma parsed_json_number_parseInt (v : JsValue) :
  parsed (json_number (parseInt v)) = json_number (parseInt v).
Proof.
  destruct (parseInt_shape v) as [-> | [z ->]]; [reflexivity |].
  destruct (binary64 (Dec z 0)) as [| negative | m e] eqn:Hz; try reflexivity.
  cbn [json_number parsed]. by rewrite <- Hz, binary64_idem.
Qed.

Section Form.

Variable form : gmap string string.

Lemma submitted_body_fields :
  field (App.submitted_body form) "name" = App.form_field form "name"
  ∧ field (App.submitted_body form) "age"
    = json_number (parseInt (App.form_field form "age"))
  ∧ field (App.submitted_body form) "income"
    = json_number (parseInt (App.form_field form "income"))
  ∧ field (App.submitted_body form) "loans"
    = json_number (parseInt (App.form_field form "loans")).
Proof.
  unfold field, App.submitted_body.
  split; [| split; [| split]]; simplify_map_eq; cbn [default];
    [| apply parsed_json_number_parseInt ..].
  unfold App.form_field. by destruct (form !! "name").
Qed.

Lemma filled_in_not (key : string) :
  filled_in form key ↔ Js.not (App.form_field form key) = false.
Proof.
  unfold filled_in, App.form_field, Js.not. destruct (form !! key) as [s |]; cbn.
  - rewrite negb_false_iff, negb_true_iff. split.
    + intros (s' & [= <-] & Hs). by apply String.eqb_neq.
    + intros Hs. exists s. split; [done |]. by apply String.eqb_neq.
  - split; [by intros (s & ? & _) | discriminate].
Qed.

Lemma all_filled_in_check :
  all_filled_in form ↔
  Js.not (App.form_field form "name") || Js.not (App.form_field form "age")
  || Js.not (App.form_field form "income") || Js.not (App.form_field form "loans")
  = false.
Proof.
  unfold all_filled_in. rewrite !filled_in_not, !orb_false_iff. tauto.
Qed.

End Form.

Section Submit.

Variables (b : Backend) (db : list Client.t) (st : App.State).

Let form : gmap string string := App.formState st.
Let body : gmap string JsValue := App.submitted_body form.

Lemma handleSubmit_blocked :
  ¬ all_filled_in form →
  App.handleSubmit b db st = (st, [Alert "Please fill all fields."], db).
Proof.
  subst form. rewrite all_filled_in_check. unfold App.handleSubmit.
  by destruct (_ || _ || _ || _).
Qed.

Lemma handleSubmit_accepted (c : Client.t) (db' : list Client.t) :
  all_filled_in form → axios_post b db body = (Some c, db') →
  App.handleSubmit b db st =
    (App.mk (c :: App.clients st) (App.loading st) (App.error st) (App.lang st)
       App.empty_form false,
     [HttpPost body], db').
Proof.
  subst body form. rewrite all_filled_in_check. unfold App.handleSubmit.
  by intros -> ->.
Qed.

Lemma handleSubmit_refused (db' : list Client.t) :
  all_filled_in form → axios_post b db body = (None, db') →
  App.handleSubmit b db st =
    (App.mk (App.clients st) (App.loading st) (App.error st) (App.lang st)
       form false,
     [HttpPost body; UiConsoleError "Submit error:";
      Alert (Tr.clientAddError (App.t st))], db).
Proof.
  subst body form. rewrite all_filled_in_check. unfold App.handleSubmit.
  intros -> Hpost. rewrite Hpost. by apply axios_post_none in Hpost as ->.
Qed.

End Submit.

(** X7. The form is posted exactly when the user has typed something in
    each of the four inputs, whatever was typed; otherwise no request
    leaves the page, the user is asked to fill all fields, and neither the
    page nor the collection changes. *)
Theorem submit_posts_iff_filled_in (b : Backend) (db : list Client.t)
    (st : App.State) :
  (posted (App.handleSubmit b db st).1.2 ↔ all_filled_in (App.formState st))
  ∧ (¬ all_filled_in (App.formState st) →
     App.handleSubmit b db st = (st, [Alert "Please fill all fields."], db)).
Proof.
  split; [| apply handleSubmit_blocked].
  split.
  - intros [body Hbody]. apply all_filled_in_check.
    unfold App.handleSubmit in Hbody.
    destruct (_ || _ || _ || _); [| reflexivity].
    cbn in Hbody. by destruct Hbody as [[=] | []].
  - intros Hfilled.
    destruct (axios_post b db (App.submitted_body (App.formState st)))
      as [[c |] db'] eqn:Hpost.
    + rewrite (handleSubmit_accepted b db st c db' Hfilled Hpost).
      eexists. by left.
    + rewrite (handleSubmit_refused b db st db' Hfilled Hpost).
      eexists. by left.
Qed.

Lemma submit_posts_iff_filled_in_witness :
  App.handleSubmit (reachable scoring_09) [] (filled "Sara" "30" "" "1")
  = (filled "Sara" "30" "" "1", [Alert "Please fill all fields."], []).
Proof.
  apply (proj2 (submit_posts_iff_filled_in (reachable scoring_09) []
                  (filled "Sara" "30" "" "1"))).
  intros (_ & _ & (s & Hs & Hne) & _). cbn in Hs. by injection Hs as <-.
Defined.

Lemma json_number_parseInt_not (v : JsValue) :
  parseInt v = NaN ∨ parseInt v = Dec 0 0 →
  Js.not (json_number (parseInt v)) = true.
Proof. by intros [-> | ->]. Qed.

(** X8. The check of the page and the check of the server disagree on age
    and income: when the form is filled in but the age or the income reads
    as zero or does not read as a number ("0", "abc"), the page posts it,
    the server answers 400 without calling the scoring service or storing
    anything, and the user gets the generic error alert with the form left
    as typed. *)
Theorem zero_or_unreadable_age_or_income (b : Backend) (db : list Client.t)
    (st : App.State) :
  backend_up b = true →
  all_filled_in (App.formState st) →
  (parseInt (App.form_field (App.formState st) "age") = NaN
   ∨ parseInt (App.form_field (App.formState st) "age") = Dec 0 0)
  ∨ (parseInt (App.form_field (App.formState st) "income") = NaN
     ∨ parseInt (App.form_field (App.formState st) "income") = Dec 0 0) →
  post_clients (backend_env b) db (App.submitted_body (App.formState st))
  = (missing_fields_answer, [], db)
  ∧ App.handleSubmit b db st =
      (App.mk (App.clients st) (App.loading st) (App.error st) (App.lang st)
         (App.formState st) false,
       [HttpPost (App.submitted_body (App.formState st));
        UiConsoleError "Submit error:"; Alert (Tr.clientAddError (App.t st))],
       db).
Proof.
  intros Hup Hfilled Hbad.
  destruct (submitted_body_fields (App.formState st)) as (Hn & Ha & Hi & Hl).
  assert (Hpost : post_clients (backend_env b) db
                    (App.submitted_body (App.formState st))
                  = (missing_fields_answer, [], db)).
  { apply post_clients_missing. unfold missing, missing_fields.
    rewrite Ha, Hi.
    destruct Hbad as [Hbad | Hbad]; apply json_number_parseInt_not in Hbad;
      rewrite Hbad; cbn [orb]; by rewrite ?orb_true_r. }
  split; [exact Hpost |].
  apply (handleSubmit_refused b db st db); [exact Hfilled |].
  by eapply axios_post_refused.
Qed.

Lemma zero_or_unreadable_age_or_income_witness :
  post_clients scoring_09 [] (App.submitted_body
                                (App.formState (filled "Sara" "0" "50" "1")))
  = (missing_fields_answer, [], []).
Proof.
  apply (zero_or_unreadable_age_or_income (reachable scoring_09) []
           (filled "Sara" "0" "50" "1")).
  - reflexivity.
  - repeat split; by eexists.
  - left. right. evaluate.
Defined.

(** X9. An unreadable number of loans is caught by neither check: with
    the other three inputs readable and not zero, the page posts [null]
    for loans, the server gets past its presence check and calls the
    scoring service, the schema then refuses the record and the answer is
    the 500 of a failed creation; the user gets the same generic alert. *)
Theorem unreadable_loans_reach_the_scoring_service (b : Backend)
    (db : list Client.t) (st : App.State) :
  backend_up b = true →
  all_filled_in (App.formState st) →
  Js.not (json_number (parseInt (App.form_field (App.formState st) "age")))
    = false →
  Js.not (json_number (parseInt (App.form_field (App.formState st) "income")))
    = false →
  parseInt (App.form_field (App.formState st) "loans") = NaN →
  (∃ events,
     post_clients (backend_env b) db (App.submitted_body (App.formState st))
     = (error_creating, events, db) ∧ axios_calls events = 1%nat)
  ∧ App.handleSubmit b db st =
      (App.mk (App.clients st) (App.loading st) (App.error st) (App.lang st)
         (App.formState st) false,
       [HttpPost (App.submitted_body (App.formState st));
        UiConsoleError "Submit error:"; Alert (Tr.clientAddError (App.t st))],
       db).
Proof.
  intros Hup Hfilled Hage Hincome Hloans.
  destruct (submitted_body_fields (App.formState st)) as (Hn & Ha & Hi & Hl).
  set (body := App.submitted_body (App.formState st)) in *.
  assert (Hmiss : missing body = false).
  { unfold missing, missing_fields. rewrite Hn, Ha, Hi, Hl, Hage, Hincome, Hloans.
    destruct Hfilled as (Hname & _). apply filled_in_not in Hname.
    by rewrite Hname. }
  assert (Hval : validate (backend_env b) (newClient_of (backend_env b) body)
                 = None).
  { apply validate_not_coercible. right. right. rewrite Hl, Hloans.
    intros [n Hn']. discriminate Hn'. }
  pose proof (post_clients_not_saved (backend_env b) db body Hmiss
                (or_introl Hval)) as Hpost.
  split.
  - eexists. split; [exact Hpost |].
    destruct (call_ai_model_events (backend_env b) (features_of body))
      as (rest & -> & Hrest).
    unfold axios_calls in *. cbn.
    by rewrite List.filter_app, length_app, Hrest.
  - apply (handleSubmit_refused b db st db); [exact Hfilled |].
    by eapply axios_post_refused.
Qed.

Lemma unreadable_loans_reach_the_scoring_service_witness :
  ∃ events,
    post_clients scoring_09 [] (App.submitted_body
                                  (App.formState (filled "Sara" "30" "50" "x")))
    = (error_creating, events, []) ∧ axios_calls events = 1%nat.
Proof.
  apply (unreadable_loans_reach_the_scoring_service (reachable scoring_09) []
           (filled "Sara" "30" "50" "x")); try evaluate.
  repeat split; by eexists.
Defined.

Lemma castNumber_json_number (v : JsValue) (n : JsNum) :
  castNumber (json_number (parseInt v)) = Casted (Some n) → parseInt v = n.
Proof.
  destruct (parseInt v) as [| negative | m e]; cbn; [discriminate .. |].
  by intros [= <-].
Qed.

(** X10. When the server accepts a submitted form, the record it stores
    and returns has the name as typed and, for age, income and loans, the
    integers [parseInt] reads in what was typed; the page puts that record
    at the head of its list and empties the form, so that submitting again
    at once sends nothing. *)
Theorem accepted_submission (b : Backend) (db db' : list Client.t)
    (st : App.State) (c : Client.t) :
  all_filled_in (App.formState st) →
  axios_post b db (App.submitted_body (App.formState st)) = (Some c, db') →
  App.handleSubmit b db st =
    (App.mk (c :: App.clients st) (App.loading st) (App.error st) (App.lang st)
       App.empty_form false,
     [HttpPost (App.submitted_body (App.formState st))], db ++ [c])
  ∧ App.form_field (App.formState st) "name" = JString (Client.name c)
  ∧ parseInt (App.form_field (App.formState st) "age") = Client.age c
  ∧ parseInt (App.form_field (App.formState st) "income") = Client.income c
  ∧ parseInt (App.form_field (App.formState st) "loans") = Client.loans c
  ∧ ∀ b' db'',
      App.handleSubmit b' db'' (App.handleSubmit b db st).1.1
      = ((App.handleSubmit b db st).1.1, [Alert "Please fill all fields."], db'').
Proof.
  intros Hfilled Hpost.
  pose proof (handleSubmit_accepted b db st c db' Hfilled Hpost) as Hsubmit.
  apply axios_post_some in Hpost as (_ & Hpost & ->).
  destruct (created_record _ _ _ _ _ _ Hpost)
    as (Hn & _ & Ha & Hi & Hl & _).
  destruct (submitted_body_fields (App.formState st)) as (Hbn & Hba & Hbi & Hbl).
  rewrite Hbn in Hn. rewrite Hba in Ha. rewrite Hbi in Hi. rewrite Hbl in Hl.
  split; [exact Hsubmit |].
  split.
  { destruct Hfilled as ((s & Hs & _) & _). unfold App.form_field in *.
    rewrite Hs in *. cbn in *. by rewrite Hn. }
  repeat (split; [by apply castNumber_json_number |]).
  intros b' db''. rewrite Hsubmit. cbn [fst].
  apply handleSubmit_blocked. cbn.
  intros ((s & Hs & Hne) & _). cbn in Hs. by injection Hs as <-.
Qed.

Lemma accepted_submission_witness :
  App.handleSubmit (reachable scoring_09) [] (filled "Sara" "30" "50.9" "1")
  = (App.mk [sara_record] false None ar App.empty_form false,
     [HttpPost (App.submitted_body
                  (App.formState (filled "Sara" "30" "50.9" "1")))],
     [] ++ [sara_record])
  ∧ Client.income sara_record = Dec 50 0.
Proof.
  split; [| reflexivity].
  refine (proj1 (accepted_submission (reachable scoring_09) [] [sara_record]
                   (filled "Sara" "30" "50.9" "1") sara_record _ _));
    [repeat split; by eexists | evaluate].
Defined.

(** ** Sessions *)

Section Fetch.

Variables (b : Backend) (db : list Client.t).

Lemma fetchClients_cases (st : App.State) :
  App.fetchClients b db st =
    (App.mk (sort_newest_first db) false None (App.lang st) (App.formState st)
       (App.isSubmitting st), [HttpGet], db)
  ∨ App.fetchClients b db st =
      (App.mk (App.clients st) false (Some (Tr.error (App.t st))) (App.lang st)
         (App.formState st) (App.isSubmitting st),
       [HttpGet; UiConsoleError "Fetch error:"], db).
Proof.
  unfold App.fetchClients.
  destruct (axios_get b db) as [[data |] db'] eqn:Hget.
  - apply axios_get_some in Hget as [-> ->]. by left.
  - apply axios_get_none in Hget as ->. by right.
Qed.

Lemma fetchClients_invariant (st : App.State) :
  incl (App.clients st) db →
  incl (App.clients (App.fetchClients b db st).1.1) (App.fetchClients b db st).2
  ∧ ∃ added, (App.fetchClients b db st).2 = db ++ added.
Proof.
  intros Hincl. destruct (fetchClients_cases st) as [-> | ->]; cbn.
  - split; [| exists []; by rewrite app_nil_r].
    intros c Hc. by apply (Permutation_in _ (sort_newest_first_perm db)).
  - split; [done | exists []; by rewrite app_nil_r].
Qed.

Lemma fetchClients_newest_first (st : App.State) :
  newest_first (App.clients st) →
  newest_first (App.clients (App.fetchClients b db st).1.1).
Proof.
  intros Hsorted. destruct (fetchClients_cases st) as [-> | ->]; cbn; [| done].
  apply sort_newest_first_sorted.
Qed.

End Fetch.

Section Step.

Variables (b : Backend) (db : list Client.t) (st : App.State).

Lemma handleSubmit_cases :
  App.handleSubmit b db st = (st, [Alert "Please fill all fields."], db)
  ∨ (∃ c, App.handleSubmit b db st =
            (App.mk (c :: App.clients st) (App.loading st) (App.error st)
               (App.lang st) App.empty_form false,
             [HttpPost (App.submitted_body (App.formState st))], db ++ [c])
          ∧ Client.createdAt c = now (backend_env b))
  ∨ App.handleSubmit b db st =
      (App.mk (App.clients st) (App.loading st) (App.error st) (App.lang st)
         (App.formState st) false,
       [HttpPost (App.submitted_body (App.formState st));
        UiConsoleError "Submit error:"; Alert (Tr.clientAddError (App.t st))],
       db).
Proof.
  destruct (Js.not (App.form_field (App.formState st) "name")
            || Js.not (App.form_field (App.formState st) "age")
            || Js.not (App.form_field (App.formState st) "income")
            || Js.not (App.form_field (App.formState st) "loans")) eqn:Hcheck.
  { left. apply handleSubmit_blocked. rewrite all_filled_in_check.
    by rewrite Hcheck. }
  apply all_filled_in_check in Hcheck. right.
  destruct (axios_post b db (App.submitted_body (App.formState st)))
    as [[c |] db'] eqn:Hpost.
  - left. exists c.
    rewrite (handleSubmit_accepted b db st c db' Hcheck Hpost).
    apply axios_post_some in Hpost as (_ & Hpost & ->).
    split; [reflexivity |].
    by destruct (created_record _ _ _ _ _ _ Hpost)
      as (_ & _ & _ & _ & _ & _ & _ & _ & ? & _).
  - right. by apply (handleSubmit_refused b db st db').
Qed.

Lemma step_invariant (a : App.Action) :
  incl (App.clients st) db →
  incl (App.clients (App.step b db st a).1.1) (App.step b db st a).2
  ∧ ∃ added, (App.step b db st a).2 = db ++ added.
Proof.
  intros Hincl.
  destruct a as [| name value | |]; cbn [App.step].
  - by apply fetchClients_invariant.
  - cbn. split; [done |]. exists []. by rewrite app_nil_r.
  - destruct handleSubmit_cases as [-> | [(c & -> & _) | ->]]; cbn.
    + split; [done |]. exists []. by rewrite app_nil_r.
    + split; [| by exists [c]].
      intros c' [<- | Hc']; apply in_or_app; [right; by left | left; by apply Hincl].
    + split; [done |]. exists []. by rewrite app_nil_r.
  - destruct (String.eqb _ _) eqn:Heq.
    + cbn. split; [done | exists []; by rewrite app_nil_r].
    + by apply fetchClients_invariant.
Qed.

Lemma step_newest_first (a : App.Action) :
  clock_ahead b db → incl (App.clients st) db → newest_first (App.clients st) →
  newest_first (App.clients (App.step b db st a).1.1).
Proof.
  intros Hclock Hincl Hsorted.
  destruct a as [| name value | |]; cbn [App.step].
  - by apply fetchClients_newest_first.
  - done.
  - destruct handleSubmit_cases as [-> | [(c & -> & Hc) | ->]]; cbn; try done.
    constructor; [exact Hsorted |].
    apply List.Forall_forall. intros c' Hc'. apply Hincl in Hc'.
    unfold clock_ahead in Hclock. rewrite List.Forall_forall in Hclock.
    rewrite Hc. by apply Hclock.
  - destruct (String.eqb _ _); [done | by apply fetchClients_newest_first].
Qed.

End Step.

Lemma run_newest_first (script : list (Backend * App.Action)) :
  ∀ (db : list Client.t) (st : App.State),
    clocks_ahead script db st →
    incl (App.clients st) db →
    newest_first (App.clients st) →
    newest_first (App.clients (App.run script db st).1).
Proof.
  induction script as [| [b a] script IH]; intros db st Hclocks Hincl Hsorted;
    cbn [App.run]; [done |].
  destruct Hclocks as [Hclock Hclocks].
  pose proof (step_newest_first b db st a Hclock Hincl Hsorted) as Hs.
  destruct (step_invariant b db st a Hincl) as (Hi & _).
  destruct (App.step b db st a) as [[st' evs] db']. cbn in *.
  by apply IH.
Qed.



(** X12. As long as the clock of the server is not behind the records it
    holds, the list of the page is newest first at every point of a session,
    also between two fetches, when records are put at its head. *)
Theorem session_lists_newest_first (script : list (Backend * App.Action))
    (db : list Client.t) :
  clocks_ahead script db App.initial →
  newest_first (App.clients (App.run script db App.initial).1).
Proof.
  intros Hclocks.
  apply run_newest_first; [done | intros c [] | constructor].
Qed.

Lemma session_lists_newest_first_witness :
  newest_first
    (App.clients
       (App.run [(reachable scoring_09, App.Mount);
                 (reachable scoring_09, App.Change "name" "Sara");
                 (reachable scoring_09, App.Change "age" "30");
                 (reachable scoring_09, App.Change "income" "50");
                 (reachable scoring_09, App.Change "loans" "1");
                 (reachable scoring_09, App.Submit)]
          [] App.initial).1).
Proof.
  apply (session_lists_newest_first _ []).
  cbn. repeat split; constructor.
Defined.

(** X13. Every change of language sends a new GET request, since the text
    the effect depends on changes with the language; when it is over the
    page is in the other language, no longer loading, and the error it
    shows, if any, is in that language whatever was shown before. *)
Theorem language_switch_refetches (b : Backend) (db : list Client.t)
    (st : App.State) :
  (∃ rest, (App.step b db st App.SwitchLanguage).1.2 = HttpGet :: rest)
  ∧ App.lang (App.step b db st App.SwitchLanguage).1.1 = App.toggle (App.lang st)
  ∧ App.loading (App.step b db st App.SwitchLanguage).1.1 = false
  ∧ error_in_language (App.step b db st App.SwitchLanguage).1.1
  ∧ (App.step b db st App.SwitchLanguage).2 = db.
Proof.
  cbn [App.step].
  assert (Heq : String.eqb (Tr.error (App.t st))
                  (Tr.error (App.t (App.mk (App.clients st) (App.loading st)
                     (App.error st) (App.toggle (App.lang st))
                     (App.formState st) (App.isSubmitting st)))) = false).
  { unfold App.t. cbn. by destruct (App.lang st). }
  rewrite Heq.
  destruct (fetchClients_cases b db
              (App.mk (App.clients st) (App.loading st) (App.error st)
                 (App.toggle (App.lang st)) (App.formState st)
                 (App.isSubmitting st))) as [-> | ->]; cbn.
  - repeat split; [by eexists | by left].
  - repeat split; [by eexists | by right].
Qed.

(** X14. Putting the new record at the head of the list agrees with the
    server: if the list of the page was the listing of the collection and
    the accepted record is strictly newer than every stored one, the list
    after the submission is what a new listing returns. *)
Theorem prepend_agrees_with_refetch (b b' : Backend) (db db' : list Client.t)
    (st : App.State) (c : Client.t) :
  all_filled_in (App.formState st) →
  axios_post b db (App.submitted_body (App.formState st)) = (Some c, db') →
  App.clients st = sort_newest_first db →
  Forall (λ c', Client.createdAt c' < now (backend_env b)) db →
  backend_up b' = true → db_up (backend_env b') = true →
  axios_get b' (App.handleSubmit b db st).2
  = (Some (App.clients (App.handleSubmit b db st).1.1),
     (App.handleSubmit b db st).2).
Proof.
  intros Hfilled Hpost Hlist Hnewer Hup Hdb.
  rewrite (handleSubmit_accepted b db st c db' Hfilled Hpost). cbn.
  apply axios_post_some in Hpost as (_ & Hpost & ->).
  destruct (created_record _ _ _ _ _ _ Hpost)
    as (_ & _ & _ & _ & _ & _ & _ & _ & Hc & _).
  rewrite axios_get_up by done. rewrite sort_newest_first_newer, Hlist; [done |].
  by rewrite Hc.
Qed.

Lemma prepend_agrees_with_refetch_witness :
  axios_get (reachable scoring_09)
    (App.handleSubmit (reachable (env_at 2000 8 (score_body (JNumber (Dec 6 (-1)))) true))
       [sara_record]
       (App.mk [sara_record] false None ar
          (App.formState (filled "Omar" "41" "90" "0")) false)).2
  = (Some [omar_record; sara_record], [sara_record; omar_record]).
Proof.
  apply (prepend_agrees_with_refetch
           (reachable (env_at 2000 8 (score_body (JNumber (Dec 6 (-1)))) true))
           (reachable scoring_09) [sara_record] [sara_record; omar_record]
           (App.mk [sara_record] false None ar
              (App.formState (filled "Omar" "41" "90" "0")) false)
           omar_record).
  - repeat split; by eexists.
  - reflexivity.
  - reflexivity.
  - constructor; [reflexivity | constructor].
  - reflexivity.
  - reflexivity.
Defined.
